(** * GenerateGraspPose: a shallow embedding of
      core/src/stages/generate_grasp_pose.cpp

    The stage samples grasp poses by rotating an object pose about its z
    axis.  C++ [double] is idealised as a real number ([R]) and [M_PI] as
    [PI]: a statement about this model is about exact real arithmetic.
    Where the number of candidates is at stake rounding matters, and the
    module [Binary64] has the sampling cursor as the double it is.  Eigen's [Affine3d] is a 3x3 linear part with a
    translation; the collaborators of the stage that live outside the
    source file (planning scene, robot model and state, marker helpers, message
    conversion back to quaternions) are gathered in an interface,
    [Collaborators]. *)

From Stdlib Require Import Floats.
From Stdlib Require Import Reals RNsatz Machin Lra Lia ZArith Bool String List.
Import ListNotations.
Local Open Scope R_scope.

(** ** Eigen geometry *)

Record Vector3d := mkVector3d { vx : R; vy : R; vz : R }.

Record Matrix3d := mkMatrix3d {
  m00 : R; m01 : R; m02 : R;
  m10 : R; m11 : R; m12 : R;
  m20 : R; m21 : R; m22 : R }.

(** [Eigen::Affine3d]: the last row of the 4x4 matrix is fixed to 0 0 0 1. *)
Record Affine3d := mkAffine3d { linear : Matrix3d; translation : Vector3d }.

Definition UnitX : Vector3d := mkVector3d 1 0 0.
Definition UnitY : Vector3d := mkVector3d 0 1 0.
Definition UnitZ : Vector3d := mkVector3d 0 0 1.

Definition Matrix3d_Identity : Matrix3d := mkMatrix3d 1 0 0 0 1 0 0 0 1.

Definition Identity : Affine3d := mkAffine3d Matrix3d_Identity (mkVector3d 0 0 0).

Definition vadd (u v : Vector3d) : Vector3d :=
  mkVector3d (vx u + vx v) (vy u + vy v) (vz u + vz v).

Definition vopp (u : Vector3d) : Vector3d := mkVector3d (- vx u) (- vy u) (- vz u).

Definition mvec (a : Matrix3d) (v : Vector3d) : Vector3d :=
  mkVector3d (m00 a * vx v + m01 a * vy v + m02 a * vz v)
             (m10 a * vx v + m11 a * vy v + m12 a * vz v)
             (m20 a * vx v + m21 a * vy v + m22 a * vz v).

Definition mmul (a b : Matrix3d) : Matrix3d :=
  mkMatrix3d
    (m00 a * m00 b + m01 a * m10 b + m02 a * m20 b)
    (m00 a * m01 b + m01 a * m11 b + m02 a * m21 b)
    (m00 a * m02 b + m01 a * m12 b + m02 a * m22 b)
    (m10 a * m00 b + m11 a * m10 b + m12 a * m20 b)
    (m10 a * m01 b + m11 a * m11 b + m12 a * m21 b)
    (m10 a * m02 b + m11 a * m12 b + m12 a * m22 b)
    (m20 a * m00 b + m21 a * m10 b + m22 a * m20 b)
    (m20 a * m01 b + m21 a * m11 b + m22 a * m21 b)
    (m20 a * m02 b + m21 a * m12 b + m22 a * m22 b).

Definition determinant (a : Matrix3d) : R :=
  m00 a * (m11 a * m22 a - m12 a * m21 a)
  - m01 a * (m10 a * m22 a - m12 a * m20 a)
  + m02 a * (m10 a * m21 a - m11 a * m20 a).

(** [Matrix3d::inverse()]: for fixed size 3 Eigen divides the transposed
    cofactor matrix by the determinant. *)
Definition Matrix3d_inverse (a : Matrix3d) : Matrix3d :=
  let d := determinant a in
  mkMatrix3d
    ((m11 a * m22 a - m12 a * m21 a) / d)
    ((m02 a * m21 a - m01 a * m22 a) / d)
    ((m01 a * m12 a - m02 a * m11 a) / d)
    ((m12 a * m20 a - m10 a * m22 a) / d)
    ((m00 a * m22 a - m02 a * m20 a) / d)
    ((m02 a * m10 a - m00 a * m12 a) / d)
    ((m10 a * m21 a - m11 a * m20 a) / d)
    ((m01 a * m20 a - m00 a * m21 a) / d)
    ((m00 a * m11 a - m01 a * m10 a) / d).

(** [a * b] on two transforms. *)
Definition compose (a b : Affine3d) : Affine3d :=
  mkAffine3d (mmul (linear a) (linear b))
             (vadd (mvec (linear a) (translation b)) (translation a)).

(** [Affine3d::inverse()] in Affine mode: invert the linear part, then
    the translation is [- linear^-1 * translation]. *)
Definition inverse (a : Affine3d) : Affine3d :=
  let li := Matrix3d_inverse (linear a) in
  mkAffine3d li (vopp (mvec li (translation a))).

(** [t * r] for a rotation [r]: [Transform::rotate], the linear part is
    multiplied on the right, the translation is kept. *)
Definition rotate (t : Affine3d) (r : Matrix3d) : Affine3d :=
  mkAffine3d (mmul (linear t) r) (translation t).

(** [t * Translation3d v]: [Transform::translate]. *)
Definition translate (t : Affine3d) (v : Vector3d) : Affine3d :=
  mkAffine3d (linear t) (vadd (mvec (linear t) v) (translation t)).

(** [AngleAxisd(angle, axis).toRotationMatrix()]. *)
Definition AngleAxisd (angle : R) (axis : Vector3d) : Matrix3d :=
  let s := sin angle in
  let c := cos angle in
  let sx := s * vx axis in
  let sy := s * vy axis in
  let sz := s * vz axis in
  let cx := (1 - c) * vx axis in
  let cy := (1 - c) * vy axis in
  let cz := (1 - c) * vz axis in
  mkMatrix3d
    (cx * vx axis + c) (cx * vy axis - sz) (cx * vz axis + sy)
    (cx * vy axis + sz) (cy * vy axis + c) (cy * vz axis - sx)
    (cx * vz axis - sy) (cy * vz axis + sx) (cz * vz axis + c).

(** [Quaterniond(w, x, y, z).toRotationMatrix()]; the quaternion is not
    normalised first. *)
Record Quaterniond := mkQuaterniond { qx : R; qy : R; qz : R; qw : R }.

Definition toRotationMatrix (q : Quaterniond) : Matrix3d :=
  let tx := 2 * qx q in
  let ty := 2 * qy q in
  let tz := 2 * qz q in
  let twx := tx * qw q in
  let twy := ty * qw q in
  let twz := tz * qw q in
  let txx := tx * qx q in
  let txy := ty * qx q in
  let txz := tz * qx q in
  let tyy := ty * qy q in
  let tyz := tz * qy q in
  let tzz := tz * qz q in
  mkMatrix3d
    (1 - (tyy + tzz)) (txy - twz) (txz + twy)
    (txy + twz) (1 - (txx + tzz)) (tyz - twx)
    (txz - twy) (tyz + twx) (1 - (txx + tyy)).

(** [m.cwiseEqual(n).all()] on the 4x4 matrices of two transforms: the
    fixed last rows agree, the other twelve entries are compared. *)
Definition Reqb (x y : R) : bool := if Req_dec_T x y then true else false.

Definition cwiseEqual_all (a b : Affine3d) : bool :=
  Reqb (m00 (linear a)) (m00 (linear b)) && Reqb (m01 (linear a)) (m01 (linear b))
  && Reqb (m02 (linear a)) (m02 (linear b)) && Reqb (m10 (linear a)) (m10 (linear b))
  && Reqb (m11 (linear a)) (m11 (linear b)) && Reqb (m12 (linear a)) (m12 (linear b))
  && Reqb (m20 (linear a)) (m20 (linear b)) && Reqb (m21 (linear a)) (m21 (linear b))
  && Reqb (m22 (linear a)) (m22 (linear b))
  && Reqb (vx (translation a)) (vx (translation b))
  && Reqb (vy (translation a)) (vy (translation b))
  && Reqb (vz (translation a)) (vz (translation b)).

(** The rotation about z the specification calls [Rot_z]. *)
Definition Rot_z (a : R) : Affine3d :=
  mkAffine3d (mkMatrix3d (cos a) (- sin a) 0 (sin a) (cos a) 0 0 0 1)
             (mkVector3d 0 0 0).

Definition invertible (a : Affine3d) : Prop := determinant (linear a) <> 0.

(** ** Messages *)

Local Open Scope string_scope.
Local Open Scope list_scope.

(** [geometry_msgs::Transform] and [geometry_msgs::TransformStamped]; of
    the header only [frame_id] is read. *)
Record Transform := mkTransform { msg_translation : Vector3d; msg_rotation : Quaterniond }.

Record TransformStamped := mkTransformStamped {
  header_frame_id : string;
  child_frame_id : string;
  transform : Transform }.

(** A default-constructed ROS message is all zeros and empty strings. *)
Definition TransformStamped_default : TransformStamped :=
  mkTransformStamped "" "" (mkTransform (mkVector3d 0 0 0) (mkQuaterniond 0 0 0 0)).

Record Pose := mkPose { position : Vector3d; orientation : Quaterniond }.

Record PoseStamped := mkPoseStamped { pose_frame_id : string; pose : Pose }.

Record ColorRGBA := mkColorRGBA { color_r : R; color_g : R; color_b : R; color_a : R }.

Record Marker := mkMarker {
  marker_frame_id : string;
  marker_ns : string;
  marker_type : Z;
  marker_pose : Pose;
  marker_scale : Vector3d;
  marker_color : ColorRGBA }.

Definition Marker_default : Marker :=
  mkMarker "" "" 0%Z (mkPose (mkVector3d 0 0 0) (mkQuaterniond 0 0 0 0))
           (mkVector3d 0 0 0) (mkColorRGBA 0 0 0 0).

Inductive Color := LIME_GREEN.

(** [tf::transformMsgToEigen]:
    [e = Translation3d(t.x, t.y, t.z) * Quaterniond(r.w, r.x, r.y, r.z)]. *)
Definition transformMsgToEigen (m : Transform) : Affine3d :=
  mkAffine3d (toRotationMatrix (msg_rotation m)) (msg_translation m).

(** ** The collaborators of the stage

    What [compute] calls and the source file does not define: the robot model,
    the robot state, frame lookup in the planning scene, the marker
    helpers, [tf::poseEigenToMsg] and [std::to_string]. *)
Class Collaborators := {
  World : Type;
  RobotState : Type;
  JointModelGroup : Type;
  (** [getRobotModel()->getEndEffector(eef)]: null when [hasEndEffector]
      is false. *)
  getEndEffector : World -> string -> option JointModelGroup;
  (** [jmg->getEndEffectorParentGroup().second] *)
  getEndEffectorParentLink : JointModelGroup -> string;
  getLinkModelNames : JointModelGroup -> list string;
  setToDefaultValues : RobotState -> JointModelGroup -> string -> RobotState;
  updateStateWithLinkAt : RobotState -> string -> Affine3d -> RobotState;
  (** [scene->getFrameTransform(id)]: the identity when [id] is unknown. *)
  getFrameTransform : World -> RobotState -> string -> Affine3d;
  getPlanningFrame : World -> string;
  poseEigenToMsg : Affine3d -> Pose;
  to_string : R -> string;
  setColor : ColorRGBA -> Color -> ColorRGBA;
  makeArrow : Marker -> R -> Marker;
  (** the markers [generateVisualMarkers] hands to its callback, in order,
      each with the name of its link *)
  generateVisualMarkers : RobotState -> list string -> list (Marker * string) }.

Section Stage.

Context {host : Collaborators}.

(** [planning_scene::PlanningScene]: what never changes here, and the
    robot state [getCurrentStateNonConst] gives access to. *)
Record PlanningScene := mkPlanningScene { world : World; current_state : RobotState }.

(** The properties the constructor declares. *)
Record Properties := mkProperties {
  eef : string;
  eef_named_pose : string;
  object : string;
  tool_to_grasp_tf : TransformStamped;
  angle_delta : R }.

(** [InterfaceState]: it points to the stage's own [scene_] (the same
    object for every candidate) and carries the property [target_pose]. *)
Record InterfaceState := mkInterfaceState { target_pose : PoseStamped }.

Record SubTrajectory := mkSubTrajectory {
  cost : R;
  name : string;
  markers : list Marker }.

(** The stage object.  [scene_] is null until [init]; [spawned] is the
    sink of the host pipeline, in the order of emission. *)
Record GenerateGraspPose := mkGenerateGraspPose {
  stage_name : string;
  properties : Properties;
  scene_ : option PlanningScene;
  current_angle_ : R;
  spawned : list (InterfaceState * SubTrajectory) }.

Definition with_properties (st : GenerateGraspPose) (p : Properties) :=
  mkGenerateGraspPose (stage_name st) p (scene_ st) (current_angle_ st) (spawned st).

Definition with_scene (st : GenerateGraspPose) (sc : PlanningScene) :=
  mkGenerateGraspPose (stage_name st) (properties st) (Some sc) (current_angle_ st)
                      (spawned st).

Definition with_current_angle (st : GenerateGraspPose) (a : R) :=
  mkGenerateGraspPose (stage_name st) (properties st) (scene_ st) a (spawned st).

(** Modelled from the spec: [Generator::spawn] is defined outside
    generate_grasp_pose.cpp; the pipeline sink accepts (state, trajectory)
    pairs and takes ownership. *)
Definition spawn (st : GenerateGraspPose) (s : InterfaceState) (t : SubTrajectory) :=
  mkGenerateGraspPose (stage_name st) (properties st) (scene_ st) (current_angle_ st)
                      (spawned st ++ [(s, t)]).

(** Modelled from the spec: the member initialiser of [current_angle_] is
    in the header, outside generate_grasp_pose.cpp; the sampling cursor
    starts at 0.  The constructor declares the properties, two of them
    with a default. *)
Definition GenerateGraspPose_new (n : string) : GenerateGraspPose :=
  mkGenerateGraspPose n (mkProperties "" "" "" TransformStamped_default (1 / 10)) None 0 [].

(** [scene_ = scene->diff()]: a child scene that starts equal to [scene].
    Nothing else of the object is written ([Generator::init] belongs to
    the base class). *)
Definition init (st : GenerateGraspPose) (scene : PlanningScene) : GenerateGraspPose :=
  with_scene st scene.

Definition setEndEffector (st : GenerateGraspPose) (e : string) :=
  let p := properties st in
  with_properties st
    (mkProperties e (eef_named_pose p) (object p) (tool_to_grasp_tf p) (angle_delta p)).

Definition setGripperGraspPose (st : GenerateGraspPose) (pose_name : string) :=
  let p := properties st in
  with_properties st
    (mkProperties (eef p) pose_name (object p) (tool_to_grasp_tf p) (angle_delta p)).

Definition setObject (st : GenerateGraspPose) (o : string) :=
  let p := properties st in
  with_properties st
    (mkProperties (eef p) (eef_named_pose p) o (tool_to_grasp_tf p) (angle_delta p)).

Definition setToolToGraspTF (st : GenerateGraspPose) (t : TransformStamped) :=
  let p := properties st in
  with_properties st
    (mkProperties (eef p) (eef_named_pose p) (object p) t (angle_delta p)).

Definition setAngleDelta (st : GenerateGraspPose) (delta : R) :=
  let p := properties st in
  with_properties st
    (mkProperties (eef p) (eef_named_pose p) (object p) (tool_to_grasp_tf p) delta).

Definition Rltb (x y : R) : bool := if Rlt_dec x y then true else false.

(** [current_angle_ < 2*M_PI && current_angle_ > -2*M_PI] *)
Definition canCompute (st : GenerateGraspPose) : bool :=
  Rltb (current_angle_ st) (2 * PI) && Rltb (-2 * PI) (current_angle_ st).

(** The same method as a call on the object: [const], it hands the object
    back as it got it. *)
Definition canCompute_call (st : GenerateGraspPose) : bool * GenerateGraspPose :=
  (canCompute st, st).

(** How a call of [compute] ends: it returns, it throws
    [std::runtime_error], or it does not survive the assertion (or the
    null pointer behind it).  Each carries the object as the call left it. *)
Inductive Outcome :=
| Returned (produced : bool) (st : GenerateGraspPose)
| Thrown (what : string) (st : GenerateGraspPose)
| Aborted (st : GenerateGraspPose).

Definition state_of (o : Outcome) : GenerateGraspPose :=
  match o with Returned _ st | Thrown _ st | Aborted st => st end.

(** Lines 105-109: the named pose, when one is configured, is applied to
    the robot state of the scene. *)
Definition apply_named_pose (p : Properties) (jmg : JointModelGroup)
    (sc : PlanningScene) : PlanningScene :=
  if eef_named_pose p =? "" then sc
  else mkPlanningScene (world sc)
         (setToDefaultValues (current_state sc) jmg (eef_named_pose p)).

(** Lines 111-114: an empty frame id means the end-effector parent link. *)
Definition offset_frame (p : Properties) (link_name : string) : string :=
  if header_frame_id (tool_to_grasp_tf p) =? "" then link_name
  else header_frame_id (tool_to_grasp_tf p).

(** Lines 115-131: [grasp2tool] and [grasp2link], or the message of the
    exception. *)
Definition grasp_transforms (p : Properties) (link_name : string) (sc : PlanningScene)
    : string + Affine3d * Affine3d :=
  let frame_id := offset_frame p link_name in
  let to_grasp := transformMsgToEigen (transform (tool_to_grasp_tf p)) in
  let grasp2tool := inverse to_grasp in
  if negb (frame_id =? link_name) then
    let link_pose := getFrameTransform (world sc) (current_state sc) link_name in
    if cwiseEqual_all link_pose Identity then
      inl "requested link does not exist or could not be retrieved"
    else
      let tool_pose := getFrameTransform (world sc) (current_state sc) frame_id in
      if cwiseEqual_all tool_pose Identity then
        inl "requested frame does not exist or could not be retrieved"
      else
        let to_grasp := compose (compose (inverse link_pose) tool_pose) to_grasp in
        inr (grasp2tool, inverse to_grasp)
  else inr (grasp2tool, grasp2tool).

(** Lines 153-165: the arrow marker. *)
Definition arrow_marker (sc : PlanningScene) (grasp_pose grasp2tool : Affine3d) : Marker :=
  let m := Marker_default in
  let m := mkMarker (getPlanningFrame (world sc)) (marker_ns m) (marker_type m)
             (marker_pose m) (marker_scale m) (marker_color m) in
  let m := mkMarker (marker_frame_id m) "grasp pose" (marker_type m)
             (marker_pose m) (marker_scale m) (marker_color m) in
  let m := mkMarker (marker_frame_id m) (marker_ns m) (marker_type m)
             (marker_pose m) (marker_scale m) (setColor (marker_color m) LIME_GREEN) in
  let scale := 1 / 10 in
  let m := makeArrow m scale in
  mkMarker (marker_frame_id m) (marker_ns m) (marker_type m)
    (poseEigenToMsg
       (translate (rotate (compose grasp_pose grasp2tool) (AngleAxisd (- PI / 2) UnitY))
                  (mkVector3d (- scale) 0 0)))
    (marker_scale m) (marker_color m).

(** Lines 169-173: the callback given to [generateVisualMarkers]. *)
Definition appender (marker : Marker) (link : string) : Marker :=
  mkMarker (marker_frame_id marker) "grasp eef" (marker_type marker)
    (marker_pose marker) (marker_scale marker)
    (mkColorRGBA (color_r (marker_color marker)) (color_g (marker_color marker))
                 (color_b (marker_color marker)) (color_a (marker_color marker) * (1 / 2))).

(** Lines 139-177: the body of the loop, entered with [canCompute] true;
    it ends in [return true]. *)
Definition sample (st : GenerateGraspPose) (sc : PlanningScene) (jmg : JointModelGroup)
    (link_name : string) (grasp2tool grasp2link object_pose : Affine3d)
    : GenerateGraspPose :=
  let grasp_pose := rotate object_pose (AngleAxisd (current_angle_ st) UnitZ) in
  let link_pose := compose grasp_pose grasp2link in
  let st := with_current_angle st (current_angle_ st + angle_delta (properties st)) in
  let goal_pose_msg := mkPoseStamped link_name (poseEigenToMsg link_pose) in
  let state := mkInterfaceState goal_pose_msg in
  let m := arrow_marker sc grasp_pose grasp2tool in
  let robot_state := updateStateWithLinkAt (current_state sc) link_name link_pose in
  let eef_markers :=
    map (fun mn => appender (fst mn) (snd mn))
        (generateVisualMarkers robot_state (getLinkModelNames jmg)) in
  let trajectory :=
    mkSubTrajectory 0 (to_string (current_angle_ st)) (m :: eef_markers) in
  spawn (with_scene st (mkPlanningScene (world sc) robot_state)) state trajectory.

(** [GenerateGraspPose::compute].  The [while] loop returns in its first
    iteration, so it is a conditional. *)
Definition compute (st : GenerateGraspPose) : Outcome :=
  let p := properties st in
  match scene_ st with
  | None => Aborted st
  | Some sc =>
    match getEndEffector (world sc) (eef p) with
    | None => Aborted st
    | Some jmg =>
      let sc := apply_named_pose p jmg sc in
      let st := with_scene st sc in
      let link_name := getEndEffectorParentLink jmg in
      match grasp_transforms p link_name sc with
      | inl what => Thrown what st
      | inr (grasp2tool, grasp2link) =>
        let object_pose := getFrameTransform (world sc) (current_state sc) (object p) in
        if cwiseEqual_all object_pose Identity then
          Thrown "requested object does not exist or could not be retrieved" st
        else if canCompute st then
          Returned true (sample st sc jmg link_name grasp2tool grasp2link object_pose)
        else Returned false st
      end
    end
  end.

(** The host pipeline calls [compute] again and again; [run n st] is the
    object after [n] calls, whatever their outcomes. *)
Fixpoint run (n : nat) (st : GenerateGraspPose) : GenerateGraspPose :=
  match n with
  | O => st
  | S k => state_of (compute (run k st))
  end.

(** The resolutions of a call of [compute] succeed: the scene is bound,
    the end effector exists, and with [sc] the scene after the named pose
    was applied, the transforms are [grasp2tool], [grasp2link] and the
    pose [object_pose], which is not the identity. *)
Definition resolves_to (st : GenerateGraspPose) (sc : PlanningScene)
    (jmg : JointModelGroup) (grasp2tool grasp2link object_pose : Affine3d) : Prop :=
  exists sc0,
    scene_ st = Some sc0 /\
    getEndEffector (world sc0) (eef (properties st)) = Some jmg /\
    sc = apply_named_pose (properties st) jmg sc0 /\
    grasp_transforms (properties st) (getEndEffectorParentLink jmg) sc
      = inr (grasp2tool, grasp2link) /\
    object_pose = getFrameTransform (world sc) (current_state sc) (object (properties st)) /\
    object_pose <> Identity.

Definition resolvable (st : GenerateGraspPose) : Prop :=
  exists sc jmg grasp2tool grasp2link object_pose,
    resolves_to st sc jmg grasp2tool grasp2link object_pose.

(** A resolution [compute] performs fails: the offset frame differs from
    the parent link and one of the two is unknown to the scene, or the
    object is. *)
Definition resolution_fails (st : GenerateGraspPose) (sc : PlanningScene)
    (jmg : JointModelGroup) : Prop :=
  let p := properties st in
  let link_name := getEndEffectorParentLink jmg in
  let frame_id := offset_frame p link_name in
  let resolve := getFrameTransform (world sc) (current_state sc) in
  (frame_id <> link_name /\ (resolve link_name = Identity \/ resolve frame_id = Identity))
  \/ resolve (object p) = Identity.

(** The two states of the sampling state machine. *)
Definition Active (st : GenerateGraspPose) : Prop := canCompute st = true.
Definition Exhausted (st : GenerateGraspPose) : Prop := canCompute st = false.

(** States the pipeline can reach from [st0] by calling [compute]. *)
Inductive reachable (st0 : GenerateGraspPose) : GenerateGraspPose -> Prop :=
| reachable_init : reachable st0 st0
| reachable_compute st : reachable st0 st -> reachable st0 (state_of (compute st)).

End Stage.

(** ** From Eigen back to messages

    [setToolToGraspTF(const Eigen::Affine3d&, const std::string&)] stores
    its transform through [tf::transformEigenToMsg], which reads the
    rotation as a quaternion. *)

(** [mat.coeff(i, j)], for indices below 3. *)
Definition coeff (mat : Matrix3d) (i j : nat) : R :=
  match i, j with
  | 0, 0 => m00 mat | 0, 1 => m01 mat | 0, _ => m02 mat
  | 1, 0 => m10 mat | 1, 1 => m11 mat | 1, _ => m12 mat
  | _, 0 => m20 mat | _, 1 => m21 mat | _, _ => m22 mat
  end%nat.

(** [q.coeffs().coeffRef(i) = v]: Eigen stores a quaternion as x, y, z, w. *)
Definition coeffRef (q : Quaterniond) (i : nat) (v : R) : Quaterniond :=
  match i with
  | 0 => mkQuaterniond v (qy q) (qz q) (qw q)
  | 1 => mkQuaterniond (qx q) v (qz q) (qw q)
  | 2 => mkQuaterniond (qx q) (qy q) v (qw q)
  | _ => mkQuaterniond (qx q) (qy q) (qz q) v
  end%nat.

(** [Quaterniond(mat)], Eigen's conversion of a 3x3 matrix: one branch for
    a positive trace, otherwise the largest diagonal entry picks the
    component computed from the square root.  Every component is written
    on each path. *)
Definition Quaterniond_of_Matrix3d (mat : Matrix3d) : Quaterniond :=
  let t := coeff mat 0 0 + coeff mat 1 1 + coeff mat 2 2 in
  if Rltb 0 t then
    let t := sqrt (t + 1) in
    let w := 1 / 2 * t in
    let t := 1 / 2 / t in
    mkQuaterniond ((coeff mat 2 1 - coeff mat 1 2) * t)
                  ((coeff mat 0 2 - coeff mat 2 0) * t)
                  ((coeff mat 1 0 - coeff mat 0 1) * t)
                  w
  else
    let i := 0%nat in
    let i := if Rltb (coeff mat 0 0) (coeff mat 1 1) then 1%nat else i in
    let i := if Rltb (coeff mat i i) (coeff mat 2 2) then 2%nat else i in
    let j := ((i + 1) mod 3)%nat in
    let k := ((j + 1) mod 3)%nat in
    let t := sqrt (coeff mat i i - coeff mat j j - coeff mat k k + 1) in
    let q := coeffRef (mkQuaterniond 0 0 0 0) i (1 / 2 * t) in
    let t := 1 / 2 / t in
    let q := coeffRef q 3 ((coeff mat k j - coeff mat j k) * t) in
    let q := coeffRef q j ((coeff mat j i + coeff mat i j) * t) in
    coeffRef q k ((coeff mat k i + coeff mat i k) * t).

(** [tf::transformEigenToMsg]: the translation, and the linear part as a
    quaternion. *)
Definition transformEigenToMsg (e : Affine3d) : Transform :=
  mkTransform (translation e) (Quaterniond_of_Matrix3d (linear e)).

Definition transpose (a : Matrix3d) : Matrix3d :=
  mkMatrix3d (m00 a) (m10 a) (m20 a) (m01 a) (m11 a) (m21 a) (m02 a) (m12 a) (m22 a).

(** A rotation matrix: orthonormal rows, determinant 1. *)
Definition is_rotation (a : Matrix3d) : Prop :=
  mmul a (transpose a) = Matrix3d_Identity /\ determinant a = 1.

(** The columns of a matrix: the images of the unit vectors. *)
Definition x_axis (a : Matrix3d) : Vector3d := mvec a UnitX.
Definition y_axis (a : Matrix3d) : Vector3d := mvec a UnitY.
Definition z_axis (a : Matrix3d) : Vector3d := mvec a UnitZ.

(** The image of a point under a transform. *)
Definition transform_point (t : Affine3d) (v : Vector3d) : Vector3d :=
  vadd (mvec (linear t) v) (translation t).

Section Calls.

Context {host : Collaborators}.

(** Lines 82-88: the overload that takes an Eigen transform and the name
    of the frame it is given in. *)
Definition setToolToGraspTF_Affine3d (st : GenerateGraspPose) (t : Affine3d)
    (link : string) : GenerateGraspPose :=
  let stamped := TransformStamped_default in
  let stamped := mkTransformStamped link (child_frame_id stamped) (transform stamped) in
  let stamped := mkTransformStamped (header_frame_id stamped) "grasp_frame"
                   (transform stamped) in
  let stamped := mkTransformStamped (header_frame_id stamped) (child_frame_id stamped)
                   (transformEigenToMsg t) in
  setToolToGraspTF st stamped.

(** The public operations of the stage, as the calls a pipeline or a user
    can make on it. *)
Inductive Call :=
| call_setEndEffector (e : string)
| call_setGripperGraspPose (pose_name : string)
| call_setObject (o : string)
| call_setToolToGraspTF (t : TransformStamped)
| call_setToolToGraspTF_Affine3d (t : Affine3d) (link : string)
| call_setAngleDelta (delta : R)
| call_init (scene : PlanningScene)
| call_compute.

Definition perform (st : GenerateGraspPose) (c : Call) : GenerateGraspPose :=
  match c with
  | call_setEndEffector e => setEndEffector st e
  | call_setGripperGraspPose n => setGripperGraspPose st n
  | call_setObject o => setObject st o
  | call_setToolToGraspTF t => setToolToGraspTF st t
  | call_setToolToGraspTF_Affine3d t link => setToolToGraspTF_Affine3d st t link
  | call_setAngleDelta delta => setAngleDelta st delta
  | call_init scene => init st scene
  | call_compute => state_of (compute st)
  end.

Definition perform_all (st : GenerateGraspPose) (calls : list Call) : GenerateGraspPose :=
  fold_left perform calls st.

Definition is_compute (c : Call) : bool :=
  match c with call_compute => true | _ => false end.

(** What a candidate shows of itself: target pose, name and cost. *)
Definition summary (c : InterfaceState * SubTrajectory) : PoseStamped * string * R :=
  (target_pose (fst c), name (snd c), cost (snd c)).

End Calls.

(** ** A bench scene

    A small instance of the interface, to run the stage on concrete
    inputs: a scene with three known frames and a gripper whose state is
    the name of its joint preset and the pose its parent link was last
    placed at. *)

Definition Translation3d (x y z : R) : Affine3d :=
  mkAffine3d Matrix3d_Identity (mkVector3d x y z).

Module Bench.

Record GripperState := mkGripperState {
  preset : string;
  placed : option (string * Affine3d) }.

Fixpoint lookup (id : string) (frames : list (string * Affine3d)) : Affine3d :=
  match frames with
  | [] => Identity
  | (n, t) :: rest => if n =? id then t else lookup id rest
  end.

Definition host : Collaborators := {|
  World := list (string * Affine3d);
  RobotState := GripperState;
  JointModelGroup := unit;
  getEndEffector := fun _ e => if e =? "gripper" then Some tt else None;
  getEndEffectorParentLink := fun _ => "wrist";
  getLinkModelNames := fun _ => ["finger_l"; "finger_r"];
  setToDefaultValues := fun rs _ pose_name => mkGripperState pose_name (placed rs);
  updateStateWithLinkAt := fun rs l t => mkGripperState (preset rs) (Some (l, t));
  getFrameTransform := fun w _ id => lookup id w;
  getPlanningFrame := fun _ => "world";
  poseEigenToMsg := fun t => mkPose (translation t) (mkQuaterniond 0 0 0 1);
  to_string := fun _ => "angle";
  setColor := fun c _ => mkColorRGBA (1 / 2) 1 0 1;
  makeArrow := fun m _ => m;
  generateVisualMarkers := fun _ links => map (fun l => (Marker_default, l)) links |}.

Definition frames : list (string * Affine3d) :=
  [("object", Translation3d 1 2 3); ("wrist", Translation3d 1 0 0);
   ("tcp", Translation3d 0 1 0)].

Definition scene : @PlanningScene host :=
  @mkPlanningScene host frames (mkGripperState "closed" None).

(** The stage as a task would set it up: gripper, object, step, then
    [init] on the scene.  The offset is left at its default. *)
Definition stage (delta : R) : @GenerateGraspPose host :=
  init (setAngleDelta (setObject (setEndEffector (GenerateGraspPose_new "grasp") "gripper")
                                 "object") delta) scene.

(** An offset of one unit along z, declared in the frame [frame]. *)
Definition offset_in (frame : string) : TransformStamped :=
  mkTransformStamped frame "grasp_frame"
    (mkTransform (mkVector3d 0 0 1) (mkQuaterniond 0 0 0 1)).

End Bench.

(** ** The sampling cursor in binary64

    Where a count of candidates is at stake the cursor cannot be a real
    number: [current_angle_] and [angle_delta] are doubles, line 141 is a
    rounded addition and line 95 compares with the double [2*M_PI].  This
    module is the stage again with these two as IEEE binary64 numbers
    (the kernel's primitive floats, round to nearest even) and everything
    else as above; a pose is computed from the exact value of the cursor. *)

Module Binary64.

(** [M_PI] of math.h, 3.14159265358979323846, as the double it denotes. *)
Definition M_PI : float := 0x1.921fb54442d18p+1%float.

(** The real number a finite double stands for (0 for the others). *)
Definition to_R (x : float) : R :=
  match Prim2SF x with
  | S754_finite s m e => (if s then -1 else 1) * IZR (Zpos m) * powerRZ 2 e
  | _ => 0
  end.

Section Stage.

Context {host : Collaborators}.

Record Properties := mkProperties {
  eef : string;
  eef_named_pose : string;
  object : string;
  tool_to_grasp_tf : TransformStamped;
  angle_delta : float }.

Record GenerateGraspPose := mkGenerateGraspPose {
  stage_name : string;
  properties : Properties;
  scene_ : option PlanningScene;
  current_angle_ : float;
  spawned : list (InterfaceState * SubTrajectory) }.

Definition with_properties (st : GenerateGraspPose) (p : Properties) :=
  mkGenerateGraspPose (stage_name st) p (scene_ st) (current_angle_ st) (spawned st).

Definition with_scene (st : GenerateGraspPose) (sc : PlanningScene) :=
  mkGenerateGraspPose (stage_name st) (properties st) (Some sc) (current_angle_ st)
                      (spawned st).

Definition with_current_angle (st : GenerateGraspPose) (a : float) :=
  mkGenerateGraspPose (stage_name st) (properties st) (scene_ st) a (spawned st).

(** Modelled from the spec: [Generator::spawn] is defined outside
    generate_grasp_pose.cpp; the sink accepts the pair. *)
Definition spawn (st : GenerateGraspPose) (s : InterfaceState) (t : SubTrajectory) :=
  mkGenerateGraspPose (stage_name st) (properties st) (scene_ st) (current_angle_ st)
                      (spawned st ++ [(s, t)]).

(** Modelled from the spec: the cursor starts at 0 (the initialiser is in
    the header).  The default step is the double written 0.1. *)
Definition GenerateGraspPose_new (n : string) : GenerateGraspPose :=
  mkGenerateGraspPose n
    (mkProperties "" "" "" TransformStamped_default 0x1.999999999999ap-4%float)
    None 0%float [].

Definition init (st : GenerateGraspPose) (scene : PlanningScene) : GenerateGraspPose :=
  with_scene st scene.

Definition setEndEffector (st : GenerateGraspPose) (e : string) :=
  let p := properties st in
  with_properties st
    (mkProperties e (eef_named_pose p) (object p) (tool_to_grasp_tf p) (angle_delta p)).

Definition setGripperGraspPose (st : GenerateGraspPose) (pose_name : string) :=
  let p := properties st in
  with_properties st
    (mkProperties (eef p) pose_name (object p) (tool_to_grasp_tf p) (angle_delta p)).

Definition setObject (st : GenerateGraspPose) (o : string) :=
  let p := properties st in
  with_properties st
    (mkProperties (eef p) (eef_named_pose p) o (tool_to_grasp_tf p) (angle_delta p)).

Definition setToolToGraspTF (st : GenerateGraspPose) (t : TransformStamped) :=
  let p := properties st in
  with_properties st
    (mkProperties (eef p) (eef_named_pose p) (object p) t (angle_delta p)).

Definition setAngleDelta (st : GenerateGraspPose) (delta : float) :=
  let p := properties st in
  with_properties st
    (mkProperties (eef p) (eef_named_pose p) (object p) (tool_to_grasp_tf p) delta).

(** The test of line 95 on a value of the cursor:
    [a < 2*M_PI && a > -2*M_PI], in doubles. *)
Definition in_range (a : float) : bool :=
  ((a <? 2 * M_PI) && (-2 * M_PI <? a))%float.

(** [current_angle_ < 2*M_PI && current_angle_ > -2*M_PI] *)
Definition canCompute (st : GenerateGraspPose) : bool :=
  ((current_angle_ st <? 2 * M_PI) && (-2 * M_PI <? current_angle_ st))%float.

Inductive Outcome :=
| Returned (produced : bool) (st : GenerateGraspPose)
| Thrown (what : string) (st : GenerateGraspPose)
| Aborted (st : GenerateGraspPose).

Definition state_of (o : Outcome) : GenerateGraspPose :=
  match o with Returned _ st | Thrown _ st | Aborted st => st end.

(** Lines 105-109. *)
Definition apply_named_pose (p : Properties) (jmg : JointModelGroup)
    (sc : PlanningScene) : PlanningScene :=
  if eef_named_pose p =? "" then sc
  else mkPlanningScene (world sc)
         (setToDefaultValues (current_state sc) jmg (eef_named_pose p)).

(** Lines 111-114. *)
Definition offset_frame (p : Properties) (link_name : string) : string :=
  if header_frame_id (tool_to_grasp_tf p) =? "" then link_name
  else header_frame_id (tool_to_grasp_tf p).

(** Lines 115-131. *)
Definition grasp_transforms (p : Properties) (link_name : string) (sc : PlanningScene)
    : string + Affine3d * Affine3d :=
  let frame_id := offset_frame p link_name in
  let to_grasp := transformMsgToEigen (transform (tool_to_grasp_tf p)) in
  let grasp2tool := inverse to_grasp in
  if negb (frame_id =? link_name) then
    let link_pose := getFrameTransform (world sc) (current_state sc) link_name in
    if cwiseEqual_all link_pose Identity then
      inl "requested link does not exist or could not be retrieved"
    else
      let tool_pose := getFrameTransform (world sc) (current_state sc) frame_id in
      if cwiseEqual_all tool_pose Identity then
        inl "requested frame does not exist or could not be retrieved"
      else
        let to_grasp := compose (compose (inverse link_pose) tool_pose) to_grasp in
        inr (grasp2tool, inverse to_grasp)
  else inr (grasp2tool, grasp2tool).

(** Lines 139-177; line 141 is the addition of two doubles. *)
Definition sample (st : GenerateGraspPose) (sc : PlanningScene) (jmg : JointModelGroup)
    (link_name : string) (grasp2tool grasp2link object_pose : Affine3d)
    : GenerateGraspPose :=
  let grasp_pose := rotate object_pose (AngleAxisd (to_R (current_angle_ st)) UnitZ) in
  let link_pose := compose grasp_pose grasp2link in
  let st := with_current_angle st (current_angle_ st + angle_delta (properties st))%float in
  let goal_pose_msg := mkPoseStamped link_name (poseEigenToMsg link_pose) in
  let state := mkInterfaceState goal_pose_msg in
  let m := arrow_marker sc grasp_pose grasp2tool in
  let robot_state := updateStateWithLinkAt (current_state sc) link_name link_pose in
  let eef_markers :=
    map (fun mn => appender (fst mn) (snd mn))
        (generateVisualMarkers robot_state (getLinkModelNames jmg)) in
  let trajectory :=
    mkSubTrajectory 0 (to_string (to_R (current_angle_ st))) (m :: eef_markers) in
  spawn (with_scene st (mkPlanningScene (world sc) robot_state)) state trajectory.

(** [GenerateGraspPose::compute], as above. *)
Definition compute (st : GenerateGraspPose) : Outcome :=
  let p := properties st in
  match scene_ st with
  | None => Aborted st
  | Some sc =>
    match getEndEffector (world sc) (eef p) with
    | None => Aborted st
    | Some jmg =>
      let sc := apply_named_pose p jmg sc in
      let st := with_scene st sc in
      let link_name := getEndEffectorParentLink jmg in
      match grasp_transforms p link_name sc with
      | inl what => Thrown what st
      | inr (grasp2tool, grasp2link) =>
        let object_pose := getFrameTransform (world sc) (current_state sc) (object p) in
        if cwiseEqual_all object_pose Identity then
          Thrown "requested object does not exist or could not be retrieved" st
        else if canCompute st then
          Returned true (sample st sc jmg link_name grasp2tool grasp2link object_pose)
        else Returned false st
      end
    end
  end.

Fixpoint run (n : nat) (st : GenerateGraspPose) : GenerateGraspPose :=
  match n with
  | O => st
  | S k => state_of (compute (run k st))
  end.

Definition resolves_to (st : GenerateGraspPose) (sc : PlanningScene)
    (jmg : JointModelGroup) (grasp2tool grasp2link object_pose : Affine3d) : Prop :=
  exists sc0,
    scene_ st = Some sc0 /\
    getEndEffector (world sc0) (eef (properties st)) = Some jmg /\
    sc = apply_named_pose (properties st) jmg sc0 /\
    grasp_transforms (properties st) (getEndEffectorParentLink jmg) sc
      = inr (grasp2tool, grasp2link) /\
    object_pose = getFrameTransform (world sc) (current_state sc) (object (properties st)) /\
    object_pose <> Identity.

Definition resolvable (st : GenerateGraspPose) : Prop :=
  exists sc jmg grasp2tool grasp2link object_pose,
    resolves_to st sc jmg grasp2tool grasp2link object_pose.

End Stage.

(** The cursor after [k] additions of [delta] to 0, each one rounded. *)
Fixpoint cursor (delta : float) (k : nat) : float :=
  match k with
  | O => 0%float
  | S k => (cursor delta k + delta)%float
  end.

(** [N] additions of [delta] take the cursor out of the range of
    [canCompute], and fewer do not. *)
Definition exhausts_after (delta : float) (N : nat) : bool :=
  forallb (fun k => in_range (cursor delta k)) (seq 0 N)
  && negb (in_range (cursor delta N)).

(** The bench stage of [Bench], with a double for its step. *)
Definition bench_stage (delta : float) : @GenerateGraspPose Bench.host :=
  init (setAngleDelta (setObject (setEndEffector (GenerateGraspPose_new "grasp") "gripper")
                                 "object") delta) Bench.scene.

End Binary64.

(** ** Facts about the geometry *)

Lemma Reqb_true (x y : R) : Reqb x y = true <-> x = y.
Proof. unfold Reqb; destruct (Req_dec_T x y); split; congruence. Qed.

Lemma cwiseEqual_all_spec (a b : Affine3d) : cwiseEqual_all a b = true <-> a = b.
Proof.
  unfold cwiseEqual_all; split.
  - intros H. repeat (apply andb_prop in H; destruct H as [H ?]).
    repeat match goal with E : Reqb _ _ = true |- _ => apply Reqb_true in E end.
    destruct a as [[] []], b as [[] []]; simpl in *; subst; reflexivity.
  - intros ->. repeat (apply andb_true_intro; split); now apply Reqb_true.
Qed.

Lemma cwiseEqual_all_false (a b : Affine3d) : cwiseEqual_all a b = false <-> a <> b.
Proof.
  rewrite <- cwiseEqual_all_spec. destruct (cwiseEqual_all a b); split; congruence.
Qed.

Lemma Affine3d_ext (a b : Affine3d) :
  linear a = linear b -> translation a = translation b -> a = b.
Proof. destruct a, b; simpl; congruence. Qed.

Lemma compose_Identity_l (a : Affine3d) : compose Identity a = a.
Proof.
  destruct a as [[] []]; unfold compose, mmul, mvec, vadd; simpl.
  f_equal; f_equal; ring.
Qed.

Lemma compose_Identity_r (a : Affine3d) : compose a Identity = a.
Proof.
  destruct a as [[] []]; unfold compose, mmul, mvec, vadd; simpl.
  f_equal; f_equal; ring.
Qed.

Lemma compose_assoc (a b c : Affine3d) :
  compose (compose a b) c = compose a (compose b c).
Proof.
  destruct a as [[] []], b as [[] []], c as [[] []].
  unfold compose, mmul, mvec, vadd; simpl. f_equal; f_equal; ring.
Qed.

Lemma inverse_compose_l (a : Affine3d) :
  invertible a -> compose (inverse a) a = Identity.
Proof.
  destruct a as [[] []]; unfold invertible, determinant; simpl; intros Hd.
  unfold compose, inverse, Matrix3d_inverse, determinant, mmul, mvec, vadd, vopp,
    Identity, Matrix3d_Identity; simpl.
  f_equal; f_equal; field; exact Hd.
Qed.

Lemma inverse_compose_r (a : Affine3d) :
  invertible a -> compose a (inverse a) = Identity.
Proof.
  destruct a as [[] []]; unfold invertible, determinant; simpl; intros Hd.
  unfold compose, inverse, Matrix3d_inverse, determinant, mmul, mvec, vadd, vopp,
    Identity, Matrix3d_Identity; simpl.
  f_equal; f_equal; field; exact Hd.
Qed.

Lemma inverse_Identity : inverse Identity = Identity.
Proof.
  unfold inverse, Matrix3d_inverse, determinant, mvec, vopp, Identity,
    Matrix3d_Identity; simpl.
  f_equal; f_equal; field.
Qed.

Lemma AngleAxisd_UnitZ (a : R) : AngleAxisd a UnitZ = linear (Rot_z a).
Proof. unfold AngleAxisd, Rot_z, UnitZ; simpl. f_equal; ring. Qed.

Lemma rotate_UnitZ (t : Affine3d) (a : R) :
  rotate t (AngleAxisd a UnitZ) = compose t (Rot_z a).
Proof.
  rewrite AngleAxisd_UnitZ. destruct t as [[] []].
  unfold rotate, compose, Rot_z, mmul, mvec, vadd; simpl. f_equal; f_equal; ring.
Qed.

Lemma Rot_z_0 : Rot_z 0 = Identity.
Proof.
  unfold Rot_z, Identity, Matrix3d_Identity. rewrite cos_0, sin_0, Ropp_0. reflexivity.
Qed.

(** The determinant of the matrix Eigen builds from a quaternion. *)
Lemma determinant_toRotationMatrix (q : Quaterniond) :
  let s := qx q * qx q + qy q * qy q + qz q * qz q in
  determinant (toRotationMatrix q) = (1 - 2 * s) * (1 - 2 * s) + 4 * (qw q * qw q) * s.
Proof. destruct q; unfold determinant, toRotationMatrix; simpl. ring. Qed.

(** ** Properties of [compute] *)

Section StageFacts.

Context {host : Collaborators}.

Lemma Rltb_true (x y : R) : Rltb x y = true <-> x < y.
Proof. unfold Rltb; destruct (Rlt_dec x y); split; intros; congruence || assumption. Qed.

Lemma Rltb_false (x y : R) : Rltb x y = false <-> y <= x.
Proof.
  unfold Rltb; destruct (Rlt_dec x y); split; intros; try congruence; lra.
Qed.

Lemma canCompute_true (st : GenerateGraspPose) :
  canCompute st = true <-> -2 * PI < current_angle_ st < 2 * PI.
Proof.
  unfold canCompute. rewrite andb_true_iff, !Rltb_true. tauto.
Qed.

Lemma canCompute_false (st : GenerateGraspPose) :
  canCompute st = false <-> current_angle_ st <= -2 * PI \/ 2 * PI <= current_angle_ st.
Proof.
  unfold canCompute. rewrite andb_false_iff, !Rltb_false. tauto.
Qed.

Lemma canCompute_angle (st st' : GenerateGraspPose) :
  current_angle_ st' = current_angle_ st -> canCompute st' = canCompute st.
Proof. unfold canCompute; intros ->; reflexivity. Qed.

Lemma compute_resolved st sc jmg grasp2tool grasp2link object_pose :
  resolves_to st sc jmg grasp2tool grasp2link object_pose ->
  compute st =
    if canCompute st
    then Returned true (sample (with_scene st sc) sc jmg (getEndEffectorParentLink jmg)
                               grasp2tool grasp2link object_pose)
    else Returned false (with_scene st sc).
Proof.
  intros (sc0 & Hsc & Hjmg & -> & Hg & -> & HO).
  unfold compute. rewrite Hsc, Hjmg. cbv zeta. rewrite Hg.
  apply cwiseEqual_all_false in HO. rewrite HO. reflexivity.
Qed.

Lemma sample_current_angle st sc jmg l g2t g2l O :
  current_angle_ (sample st sc jmg l g2t g2l O)
  = current_angle_ st + angle_delta (properties st).
Proof. reflexivity. Qed.

Lemma sample_spawned st sc jmg l g2t g2l O :
  exists traj,
    spawned (sample st sc jmg l g2t g2l O)
    = spawned st ++
        [(mkInterfaceState
            (mkPoseStamped l
               (poseEigenToMsg
                  (compose (rotate O (AngleAxisd (current_angle_ st) UnitZ)) g2l))),
          traj)]
    /\ cost traj = 0
    /\ name traj = to_string (current_angle_ st + angle_delta (properties st)).
Proof. eexists; repeat split. Qed.

Lemma sample_properties st sc jmg l g2t g2l O :
  properties (sample st sc jmg l g2t g2l O) = properties st.
Proof. reflexivity. Qed.

Lemma compute_properties st : properties (state_of (compute st)) = properties st.
Proof.
  unfold compute. destruct (scene_ st) as [sc|]; [|reflexivity].
  destruct (getEndEffector _ _) as [jmg|]; [|reflexivity]. cbv zeta.
  destruct (grasp_transforms _ _ _) as [w|[g2t g2l]]; [reflexivity|].
  destruct (cwiseEqual_all _ _); [reflexivity|].
  destruct (canCompute _); reflexivity.
Qed.

(** Once [canCompute] is false a call changes neither the cursor nor the
    sink, however it ends. *)
Lemma compute_exhausted_frame st :
  canCompute st = false ->
  current_angle_ (state_of (compute st)) = current_angle_ st /\
  spawned (state_of (compute st)) = spawned st.
Proof.
  intros Hc. unfold compute. destruct (scene_ st) as [sc|]; [|split; reflexivity].
  destruct (getEndEffector _ _) as [jmg|]; [|split; reflexivity]. cbv zeta.
  destruct (grasp_transforms _ _ _) as [w|[g2t g2l]]; [split; reflexivity|].
  destruct (cwiseEqual_all _ _); [split; reflexivity|].
  change (canCompute (with_scene st (apply_named_pose (properties st) jmg sc)))
    with (canCompute st).
  rewrite Hc. split; reflexivity.
Qed.

(** A call that does not return [true] changes neither the cursor nor the
    sink. *)
Lemma compute_not_produced_frame st :
  (forall st', compute st <> Returned true st') ->
  current_angle_ (state_of (compute st)) = current_angle_ st /\
  spawned (state_of (compute st)) = spawned st.
Proof.
  unfold compute. destruct (scene_ st) as [sc|]; [|split; reflexivity].
  destruct (getEndEffector _ _) as [jmg|]; [|split; reflexivity]. cbv zeta.
  destruct (grasp_transforms _ _ _) as [w|[g2t g2l]]; [split; reflexivity|].
  destruct (cwiseEqual_all _ _); [split; reflexivity|].
  destruct (canCompute _); [|split; reflexivity].
  intros H. exfalso. eapply H. reflexivity.
Qed.

(** A call returns [true] only from an active state, and then it is the
    sampling step: the cursor moves by one [angle_delta], one pair is
    appended. *)
Lemma compute_produced st st' :
  compute st = Returned true st' ->
  canCompute st = true /\
  current_angle_ st' = current_angle_ st + angle_delta (properties st) /\
  exists x, spawned st' = spawned st ++ [x].
Proof.
  unfold compute. destruct (scene_ st) as [sc|]; [|discriminate].
  destruct (getEndEffector _ _) as [jmg|]; [|discriminate]. cbv zeta.
  destruct (grasp_transforms _ _ _) as [w|[g2t g2l]]; [discriminate|].
  destruct (cwiseEqual_all _ _); [discriminate|].
  change (canCompute (with_scene st (apply_named_pose (properties st) jmg sc)))
    with (canCompute st).
  destruct (canCompute st); [|discriminate].
  intros [= <-]. split; [reflexivity|]. split; [reflexivity|].
  eexists. reflexivity.
Qed.

Lemma compute_step_cases st :
  (current_angle_ (state_of (compute st)) = current_angle_ st /\
   spawned (state_of (compute st)) = spawned st)
  \/ (canCompute st = true /\
      current_angle_ (state_of (compute st))
      = current_angle_ st + angle_delta (properties st) /\
      exists x, spawned (state_of (compute st)) = spawned st ++ [x]).
Proof.
  destruct (compute st) as [[|] st'| |] eqn:E.
  - right. simpl. now apply compute_produced.
  - left. rewrite <- E. apply compute_not_produced_frame. congruence.
  - left. rewrite <- E. apply compute_not_produced_frame. congruence.
  - left. rewrite <- E. apply compute_not_produced_frame. congruence.
Qed.

(** The sampling step seen from outside: what a call from an active
    state with successful resolutions returns and emits. *)
Lemma compute_active_resolved st sc jmg grasp2tool grasp2link object_pose :
  canCompute st = true ->
  resolves_to st sc jmg grasp2tool grasp2link object_pose ->
  exists st' trajectory,
    compute st = Returned true st' /\
    spawned st'
    = spawned st ++
        [(mkInterfaceState
            (mkPoseStamped (getEndEffectorParentLink jmg)
               (poseEigenToMsg
                  (compose (compose object_pose (Rot_z (current_angle_ st))) grasp2link))),
          trajectory)] /\
    name trajectory = to_string (current_angle_ st + angle_delta (properties st)) /\
    current_angle_ st' = current_angle_ st + angle_delta (properties st).
Proof.
  intros Hc Hr. rewrite (compute_resolved _ _ _ _ _ _ Hr), Hc.
  destruct (sample_spawned (with_scene st sc) sc jmg (getEndEffectorParentLink jmg)
              grasp2tool grasp2link object_pose) as (traj & Hs & _ & Hn).
  rewrite rotate_UnitZ in Hs.
  eexists; exists traj. split; [reflexivity|].
  split; [exact Hs|]. split; [exact Hn|reflexivity].
Qed.

Lemma run_properties n st : properties (run n st) = properties st.
Proof.
  induction n as [|n IH]; [reflexivity|]. simpl. now rewrite compute_properties.
Qed.

Lemma run_S n st : run (S n) st = state_of (compute (run n st)).
Proof. reflexivity. Qed.

Lemma run_add n m st : run (n + m) st = run n (run m st).
Proof. induction n as [|n IH]; [reflexivity|]. simpl. now rewrite IH. Qed.

(** A call never replaces the scene's world. *)
Lemma compute_world st sc :
  scene_ st = Some sc ->
  exists sc', scene_ (state_of (compute st)) = Some sc' /\ world sc' = world sc.
Proof.
  intros Hsc. unfold compute. rewrite Hsc.
  destruct (getEndEffector _ _) as [jmg|]; [|now exists sc]. cbv zeta.
  assert (Hw : world (apply_named_pose (properties st) jmg sc) = world sc).
  { unfold apply_named_pose. now destruct (_ =? _). }
  destruct (grasp_transforms _ _ _) as [w|[g2t g2l]]; [eexists; split; [reflexivity|exact Hw]|].
  destruct (cwiseEqual_all _ _); [eexists; split; [reflexivity|exact Hw]|].
  destruct (canCompute _); eexists; (split; [reflexivity|exact Hw]).
Qed.

Lemma run_world n st sc :
  scene_ st = Some sc ->
  exists sc', scene_ (run n st) = Some sc' /\ world sc' = world sc.
Proof.
  intros Hsc. induction n as [|n (sc' & Hsc' & Hw)]; [now exists sc|].
  rewrite run_S. destruct (compute_world _ _ Hsc') as (sc'' & H1 & H2).
  exists sc''. split; [exact H1|congruence].
Qed.

End StageFacts.

(** ** The readiness query and a single production step *)

Section SingleStep.

Context {host : Collaborators}.

Lemma canCompute_calls (n : nat) (st : GenerateGraspPose) :
  Nat.iter n (fun s => snd (canCompute_call s)) st = st.
Proof. induction n as [|n IH]; [reflexivity|]. simpl. exact IH. Qed.

(** C2: [canCompute] is true exactly when the cursor is strictly between
    -2 pi and 2 pi, false exactly when it is at or beyond one of the two
    bounds, true at 0; and it is a query: after any number of calls the
    object is as it was and the answer is the same. *)
Theorem canCompute_iff_in_range (st : GenerateGraspPose) :
  (canCompute st = true <-> -2 * PI < current_angle_ st < 2 * PI) /\
  (canCompute st = false <->
     current_angle_ st <= -2 * PI \/ current_angle_ st >= 2 * PI) /\
  canCompute (with_current_angle st 0) = true /\
  (forall n : nat,
     let st' := Nat.iter n (fun s => snd (canCompute_call s)) st in
     st' = st /\ fst (canCompute_call st') = canCompute st).
Proof.
  split; [apply canCompute_true|].
  split.
  - rewrite canCompute_false. split; (intros [H|H]; [left|right]; lra).
  - split.
    + apply canCompute_true. simpl. pose proof PI_RGT_0. lra.
    + intros n st'. subst st'. rewrite canCompute_calls. split; reflexivity.
Qed.

Lemma compute_emits_at_most_one (st : GenerateGraspPose) :
  (length (spawned (state_of (compute st))) <= S (length (spawned st)))%nat.
Proof.
  destruct (compute_step_cases st) as [[_ ->]|(_ & _ & x & ->)].
  - lia.
  - rewrite length_app. simpl. lia.
Qed.

(** C3: from a state where [canCompute] holds and every resolution
    succeeds, one call of [compute] returns true, appends exactly one
    (interface state, trajectory) pair to the sink and moves the cursor by
    one [angle_delta]; and no call, from any state, emits more than one
    pair. *)
Theorem compute_emits_exactly_one (st : GenerateGraspPose) :
  canCompute st = true ->
  resolvable st ->
  (exists st' x,
     compute st = Returned true st' /\
     spawned st' = spawned st ++ [x] /\
     current_angle_ st' = current_angle_ st + angle_delta (properties st)) /\
  (forall s : GenerateGraspPose,
     (length (spawned (state_of (compute s))) <= S (length (spawned s)))%nat).
Proof.
  intros Hc (sc & jmg & g2t & g2l & O & Hr). split.
  - rewrite (compute_resolved _ _ _ _ _ _ Hr), Hc.
    destruct (sample_spawned (with_scene st sc) sc jmg (getEndEffectorParentLink jmg)
                g2t g2l O) as (traj & Hs & _).
    eexists; eexists. split; [reflexivity|]. split; [exact Hs|reflexivity].
  - apply compute_emits_at_most_one.
Qed.

(** C4: in a successful call the target pose is computed from the angle
    on entry, [object_pose * Rot_z(a) * grasp2link], and the trajectory is
    named after the angle on exit, [a + angle_delta]; with the cursor at 0
    and an identity offset given in the link frame the target pose is the
    object pose. *)
Theorem pose_before_increment_name_after
    (st : GenerateGraspPose) (sc : PlanningScene) (jmg : JointModelGroup)
    (grasp2tool grasp2link object_pose : Affine3d) :
  canCompute st = true ->
  resolves_to st sc jmg grasp2tool grasp2link object_pose ->
  let a := current_angle_ st in
  let link_name := getEndEffectorParentLink jmg in
  exists st' state trajectory,
    compute st = Returned true st' /\
    spawned st' = spawned st ++ [(state, trajectory)] /\
    target_pose state
    = mkPoseStamped link_name
        (poseEigenToMsg (compose (compose object_pose (Rot_z a)) grasp2link)) /\
    name trajectory = to_string (a + angle_delta (properties st)) /\
    current_angle_ st' = a + angle_delta (properties st) /\
    (a = 0 ->
     offset_frame (properties st) link_name = link_name ->
     transformMsgToEigen (transform (tool_to_grasp_tf (properties st))) = Identity ->
     target_pose state = mkPoseStamped link_name (poseEigenToMsg object_pose)).
Proof.
  intros Hc Hr a link_name.
  destruct (compute_active_resolved _ _ _ _ _ _ Hc Hr) as (st' & traj & Hcomp & Hs & Hn & Hang).
  exists st'; eexists; exists traj. split; [exact Hcomp|].
  split; [exact Hs|]. split; [reflexivity|]. split; [exact Hn|].
  split; [exact Hang|].
  intros Ha Hf HT. simpl.
  destruct Hr as (sc0 & _ & _ & _ & Hg & _ & _).
  unfold grasp_transforms in Hg. fold link_name in Hg.
  rewrite Hf, String.eqb_refl in Hg. simpl in Hg.
  injection Hg as _ <-.
  change (current_angle_ st) with a. rewrite Ha, Rot_z_0, compose_Identity_r.
  rewrite HT, inverse_Identity, compose_Identity_r. reflexivity.
Qed.

Lemma with_scene_same (st : GenerateGraspPose) (sc : PlanningScene) :
  scene_ st = Some sc -> with_scene st sc = st.
Proof. destruct st; simpl; intros ->; reflexivity. Qed.

(** C7: when a resolution that [compute] performs comes back as the
    identity (the link or the declared frame when the offset is not given
    in the link frame, or the object), the call throws, nothing reaches
    the sink and the cursor is where it was. *)
Theorem resolution_failure_throws
    (st : GenerateGraspPose) (sc0 : PlanningScene) (jmg : JointModelGroup) :
  scene_ st = Some sc0 ->
  getEndEffector (world sc0) (eef (properties st)) = Some jmg ->
  resolution_fails st (apply_named_pose (properties st) jmg sc0) jmg ->
  exists what st',
    compute st = Thrown what st' /\
    current_angle_ st' = current_angle_ st /\
    spawned st' = spawned st /\
    properties st' = properties st.
Proof.
  intros Hsc Hjmg Hfail. unfold compute. rewrite Hsc, Hjmg. cbv zeta.
  set (sc := apply_named_pose (properties st) jmg sc0) in *.
  unfold resolution_fails in Hfail. cbv zeta in Hfail.
  unfold grasp_transforms.
  set (link_name := getEndEffectorParentLink jmg) in *.
  set (frame_id := offset_frame (properties st) link_name) in *.
  destruct (String.eqb_spec frame_id link_name) as [Heq|Hne]; simpl.
  - destruct Hfail as [[Hne _]|HO]; [contradiction|].
    apply cwiseEqual_all_spec in HO. rewrite HO.
    eexists; eexists; repeat split.
  - destruct (cwiseEqual_all (getFrameTransform (world sc) (current_state sc) link_name)
                Identity) eqn:EL.
    { eexists; eexists; repeat split. }
    destruct (cwiseEqual_all (getFrameTransform (world sc) (current_state sc) frame_id)
                Identity) eqn:EF.
    { eexists; eexists; repeat split. }
    destruct Hfail as [[_ [HL|HF]]|HO].
    + apply cwiseEqual_all_spec in HL. congruence.
    + apply cwiseEqual_all_spec in HF. congruence.
    + apply cwiseEqual_all_spec in HO. rewrite HO.
      eexists; eexists; repeat split.
Qed.

(** C8 (amended): from a state where [canCompute] is false a call emits
    nothing and leaves the cursor and the properties alone, however it
    ends; when the resolutions succeed it returns false, and the object
    is then as before except that a configured named pose has been applied
    to the robot state of the scene; with no named pose configured the
    object is unchanged. *)
Theorem exhausted_compute_returns_false (st : GenerateGraspPose) :
  canCompute st = false ->
  (current_angle_ (state_of (compute st)) = current_angle_ st /\
   spawned (state_of (compute st)) = spawned st /\
   properties (state_of (compute st)) = properties st) /\
  (forall sc jmg grasp2tool grasp2link object_pose,
     resolves_to st sc jmg grasp2tool grasp2link object_pose ->
     compute st = Returned false (with_scene st sc) /\
     (eef_named_pose (properties st) = "" -> compute st = Returned false st)).
Proof.
  intros Hc. split.
  - destruct (compute_exhausted_frame st Hc) as [Ha Hs].
    repeat split; auto using compute_properties.
  - intros sc jmg g2t g2l O Hr.
    rewrite (compute_resolved _ _ _ _ _ _ Hr), Hc. split; [reflexivity|].
    intros Hn. destruct Hr as (sc0 & Hsc & _ & -> & _).
    unfold apply_named_pose. rewrite Hn. simpl.
    now rewrite with_scene_same.
Qed.

End SingleStep.

(** ** The transform chain *)

Section TransformChain.

Context {host : Collaborators}.

Lemma unit_quaternion_invertible (m : Transform) :
  let q := msg_rotation m in
  qx q * qx q + qy q * qy q + qz q * qz q + qw q * qw q = 1 ->
  invertible (transformMsgToEigen m).
Proof.
  intros q Hq. unfold invertible, transformMsgToEigen; simpl.
  rewrite determinant_toRotationMatrix. fold q. cbv zeta.
  replace ((1 - 2 * (qx q * qx q + qy q * qy q + qz q * qz q)) *
           (1 - 2 * (qx q * qx q + qy q * qy q + qz q * qz q)) +
           4 * (qw q * qw q) * (qx q * qx q + qy q * qy q + qz q * qz q))
    with 1 by nra.
  lra.
Qed.

Lemma grasp_transforms_direct (p : Properties) (link_name : string) (sc : PlanningScene) :
  offset_frame p link_name = link_name ->
  grasp_transforms p link_name sc
  = inr (inverse (transformMsgToEigen (transform (tool_to_grasp_tf p))),
         inverse (transformMsgToEigen (transform (tool_to_grasp_tf p)))).
Proof.
  intros Hf. unfold grasp_transforms. rewrite Hf, String.eqb_refl. reflexivity.
Qed.

Lemma offset_frame_link (p : Properties) (link_name : string) :
  offset_frame p link_name = link_name <->
  header_frame_id (tool_to_grasp_tf p) = "" \/
  header_frame_id (tool_to_grasp_tf p) = link_name.
Proof.
  unfold offset_frame.
  destruct (String.eqb_spec (header_frame_id (tool_to_grasp_tf p)) "") as [E|E].
  - tauto.
  - tauto.
Qed.

Lemma grasp_transforms_other_frame (p : Properties) (link_name : string)
    (sc : PlanningScene) :
  let F := header_frame_id (tool_to_grasp_tf p) in
  let T := transformMsgToEigen (transform (tool_to_grasp_tf p)) in
  let link_pose := getFrameTransform (world sc) (current_state sc) link_name in
  let F_pose := getFrameTransform (world sc) (current_state sc) F in
  F <> "" -> F <> link_name ->
  link_pose <> Identity -> F_pose <> Identity ->
  grasp_transforms p link_name sc
  = inr (inverse T, inverse (compose (compose (inverse link_pose) F_pose) T)).
Proof.
  intros F T link_pose F_pose HF0 HFl HL HFp.
  unfold grasp_transforms, offset_frame. fold F.
  apply String.eqb_neq in HF0. rewrite HF0.
  apply String.eqb_neq in HFl. rewrite HFl. simpl.
  fold link_pose F_pose.
  apply cwiseEqual_all_false in HL, HFp. rewrite HL, HFp. reflexivity.
Qed.

(** C5 (amended): with the offset [T] declared in a frame [F] other than
    the parent link, both frames known to the scene, [grasp2link] is the
    inverse of [inverse(link_pose) * F_pose * T]; putting the link pose
    for [F_pose] in this law, the link pose being invertible, gives
    [inverse(T)], the direct case. *)
Theorem grasp2link_reexpressed (p : Properties) (link_name : string) (sc : PlanningScene) :
  let F := header_frame_id (tool_to_grasp_tf p) in
  let T := transformMsgToEigen (transform (tool_to_grasp_tf p)) in
  let link_pose := getFrameTransform (world sc) (current_state sc) link_name in
  let F_pose := getFrameTransform (world sc) (current_state sc) F in
  F <> "" -> F <> link_name ->
  link_pose <> Identity -> F_pose <> Identity ->
  grasp_transforms p link_name sc
  = inr (inverse T, inverse (compose (compose (inverse link_pose) F_pose) T)) /\
  (invertible link_pose ->
   inverse (compose (compose (inverse link_pose) link_pose) T) = inverse T).
Proof.
  intros F T link_pose F_pose HF0 HFl HL HFp. split.
  - now apply grasp_transforms_other_frame.
  - intros Hinv. now rewrite inverse_compose_l, compose_Identity_l.
Qed.

(** C6: with the offset [T] given in the parent-link frame (declared so,
    or the frame left empty), [grasp2tool] and [grasp2link] are both
    [inverse(T)], and for an invertible [T] (any [T] whose quaternion has
    norm 1 is) [grasp2tool * T] is the identity. *)
Theorem direct_offset_roundtrip (p : Properties) (link_name : string) (sc : PlanningScene) :
  let F := header_frame_id (tool_to_grasp_tf p) in
  let T := transformMsgToEigen (transform (tool_to_grasp_tf p)) in
  F = "" \/ F = link_name ->
  exists grasp2tool grasp2link,
    grasp_transforms p link_name sc = inr (grasp2tool, grasp2link) /\
    grasp2tool = inverse T /\
    grasp2link = inverse T /\
    (invertible T -> compose grasp2tool T = Identity) /\
    (let q := msg_rotation (transform (tool_to_grasp_tf p)) in
     qx q * qx q + qy q * qy q + qz q * qz q + qw q * qw q = 1 ->
     compose grasp2tool T = Identity).
Proof.
  intros F T HF. apply offset_frame_link in HF.
  exists (inverse T), (inverse T).
  split; [now apply grasp_transforms_direct|].
  split; [reflexivity|]. split; [reflexivity|].
  split.
  - apply inverse_compose_l.
  - intros q Hq. apply inverse_compose_l. now apply unit_quaternion_invertible.
Qed.

End TransformChain.

(** ** Sequences of production steps *)

Section Sampling.

Context {host : Collaborators}.

Lemma exhausted_run (st : GenerateGraspPose) (n : nat) :
  canCompute st = false ->
  canCompute (run n st) = false /\
  current_angle_ (run n st) = current_angle_ st /\
  spawned (run n st) = spawned st.
Proof.
  intros Hc. induction n as [|n (IHc & IHa & IHs)]; [auto|].
  rewrite run_S. destruct (compute_exhausted_frame _ IHc) as [Ha Hs].
  repeat split; try congruence.
  rewrite (canCompute_angle (run n st)); assumption.
Qed.

Lemma reachable_cursor (st0 st : GenerateGraspPose) :
  current_angle_ st0 = 0 ->
  reachable st0 st ->
  properties st = properties st0 /\
  exists k : nat, current_angle_ st = INR k * angle_delta (properties st0).
Proof.
  intros H0. induction 1 as [|st Hr [IHp [k IHk]]].
  - split; [reflexivity|]. exists 0%nat. simpl. lra.
  - split; [now rewrite compute_properties|].
    destruct (compute_step_cases st) as [[Ha _]|(_ & Ha & _)].
    + exists k. congruence.
    + exists (S k). rewrite Ha, IHk, IHp, S_INR. ring.
Qed.

Lemma reachable_run (st0 : GenerateGraspPose) (n : nat) : reachable st0 (run n st0).
Proof. induction n; [constructor|]. rewrite run_S. now constructor. Qed.

Lemma canCompute_abs (st : GenerateGraspPose) :
  canCompute st = true <-> Rabs (current_angle_ st) < 2 * PI.
Proof.
  rewrite canCompute_true. split; intros H.
  - apply Rabs_def1; lra.
  - apply Rabs_def2 in H. lra.
Qed.

(** C9: a state reached from a cursor at 0 that is exhausted stays
    exhausted, with its cursor unmoved, under any number of further
    calls; no call from a reachable state makes the cursor smaller in
    absolute value; and a call that produces a sample starts from an
    active state (and ends in an active or an exhausted one). *)
Theorem exhausted_is_terminal (st0 st : GenerateGraspPose) :
  current_angle_ st0 = 0 ->
  reachable st0 st ->
  (Exhausted st ->
   forall n : nat,
     Exhausted (run n st) /\ current_angle_ (run n st) = current_angle_ st) /\
  Rabs (current_angle_ st) <= Rabs (current_angle_ (state_of (compute st))) /\
  (forall st', compute st = Returned true st' ->
               Active st /\ (Active st' \/ Exhausted st')).
Proof.
  intros H0 Hr. split; [|split].
  - intros He n. destruct (exhausted_run st n He) as (Hc & Ha & _). auto.
  - destruct (reachable_cursor _ _ H0 Hr) as [Hp [k Hk]].
    destruct (compute_step_cases st) as [[-> _]|(_ & -> & _)]; [lra|].
    rewrite Hk, Hp.
    replace (INR k * angle_delta (properties st0) + angle_delta (properties st0))
      with (INR (S k) * angle_delta (properties st0)) by (rewrite S_INR; ring).
    rewrite !Rabs_mult, !(Rabs_pos_eq (INR _)) by apply pos_INR.
    apply Rmult_le_compat_r; [apply Rabs_pos|]. rewrite S_INR. lra.
  - intros st' Hs. split; [apply (compute_produced _ _ Hs)|].
    unfold Active, Exhausted. destruct (canCompute st'); auto.
Qed.

(** C10: with [angle_delta = 0], a cursor at 0 and an environment in which
    every call resolves the same transforms, the cursor stays at 0,
    [canCompute] stays true, and every call returns true and emits a
    candidate whose target pose is the object pose rotated by 0 and
    moved by [grasp2link], the same at every call. *)
Theorem zero_delta_never_exhausts
    (st0 : GenerateGraspPose) (jmg : JointModelGroup)
    (grasp2tool grasp2link object_pose : Affine3d) :
  current_angle_ st0 = 0 ->
  angle_delta (properties st0) = 0 ->
  (forall k : nat,
     exists sc, resolves_to (run k st0) sc jmg grasp2tool grasp2link object_pose) ->
  forall n : nat,
    current_angle_ (run n st0) = 0 /\
    canCompute (run n st0) = true /\
    length (spawned (run n st0)) = (length (spawned st0) + n)%nat /\
    exists st' state trajectory,
      compute (run n st0) = Returned true st' /\
      spawned st' = spawned (run n st0) ++ [(state, trajectory)] /\
      target_pose state
      = mkPoseStamped (getEndEffectorParentLink jmg)
          (poseEigenToMsg (compose (compose object_pose (Rot_z 0)) grasp2link)) /\
      compose (compose object_pose (Rot_z 0)) grasp2link = compose object_pose grasp2link.
Proof.
  intros H0 Hd Hres.
  assert (Hcan : forall s : GenerateGraspPose, current_angle_ s = 0 -> canCompute s = true).
  { intros s Hs. apply canCompute_true. rewrite Hs. pose proof PI_RGT_0. lra. }
  assert (Hstep : forall n, current_angle_ (run n st0) = 0 ->
            exists st' state trajectory,
              compute (run n st0) = Returned true st' /\
              spawned st' = spawned (run n st0) ++ [(state, trajectory)] /\
              target_pose state
              = mkPoseStamped (getEndEffectorParentLink jmg)
                  (poseEigenToMsg (compose (compose object_pose (Rot_z 0)) grasp2link)) /\
              current_angle_ st' = 0).
  { intros n Ha. destruct (Hres n) as [sc Hr].
    destruct (compute_active_resolved _ _ _ _ _ _ (Hcan _ Ha) Hr)
      as (st' & traj & Hc & Hs & _ & Hang).
    exists st'; eexists; exists traj. rewrite Ha in Hs, Hang.
    rewrite run_properties, Hd in Hang.
    split; [exact Hc|]. split; [exact Hs|]. split; [reflexivity|]. lra. }
  assert (Hmain : forall n, current_angle_ (run n st0) = 0 /\
                            length (spawned (run n st0)) = (length (spawned st0) + n)%nat).
  { induction n as [|n [IHa IHs]].
    - simpl. split; [exact H0|lia].
    - destruct (Hstep n IHa) as (st' & state & traj & Hc & Hs & _ & Hang).
      rewrite run_S, Hc. simpl. rewrite Hs, length_app, IHs. simpl. split; [exact Hang|lia]. }
  intros n. destruct (Hmain n) as [Ha Hlen].
  split; [exact Ha|]. split; [now apply Hcan|]. split; [exact Hlen|].
  destruct (Hstep n Ha) as (st' & state & traj & Hc & Hs & Ht & _).
  exists st', state, traj. repeat split; auto.
  now rewrite Rot_z_0, compose_Identity_r.
Qed.

End Sampling.

(** ** Configuration and re-initialisation *)

Section Lifecycle.

Context {host : Collaborators}.

(** X2: [compute] reads the properties and never writes them: however a call
    ends, the configuration and the name of the stage are as before. *)
Theorem compute_keeps_configuration (st : GenerateGraspPose) :
  properties (state_of (compute st)) = properties st /\
  stage_name (state_of (compute st)) = stage_name st.
Proof.
  split; [apply compute_properties|].
  unfold compute. destruct (scene_ st) as [sc|]; [|reflexivity].
  destruct (getEndEffector _ _) as [jmg|]; [|reflexivity]. cbv zeta.
  destruct (grasp_transforms _ _ _) as [w|[g2t g2l]]; [reflexivity|].
  destruct (cwiseEqual_all _ _); [reflexivity|].
  destruct (canCompute _); reflexivity.
Qed.

(** [init] binds a scene and nothing else: the cursor is not reset, so a
    generator that was exhausted is still exhausted after [init]. *)
Lemma init_keeps_cursor (st : GenerateGraspPose) (scene : PlanningScene) :
  scene_ (init st scene) = Some scene /\
  current_angle_ (init st scene) = current_angle_ st /\
  canCompute (init st scene) = canCompute st /\
  spawned (init st scene) = spawned st /\
  properties (init st scene) = properties st.
Proof. repeat split. Qed.

(** X4: the offset a new stage starts with, a default-constructed message
    with an empty frame and an all-zero quaternion, makes [grasp2tool] and
    [grasp2link] the identity. *)
Theorem default_offset_transforms (n link_name : string) (sc : PlanningScene) :
  grasp_transforms (properties (GenerateGraspPose_new n)) link_name sc
  = inr (Identity, Identity).
Proof.
  rewrite grasp_transforms_direct by reflexivity.
  assert (HT : transformMsgToEigen
                 (transform (tool_to_grasp_tf (properties (GenerateGraspPose_new n))))
               = Identity).
  { unfold transformMsgToEigen, toRotationMatrix, Identity, Matrix3d_Identity; simpl.
    f_equal; f_equal; ring. }
  rewrite HT, inverse_Identity. reflexivity.
Qed.

End Lifecycle.

(** ** How a call of [compute] ends *)

Section Outcomes.

Context {host : Collaborators}.

Lemma grasp_transforms_cases (p : Properties) (link_name : string) (sc : PlanningScene) :
  let frame_id := offset_frame p link_name in
  let resolve := getFrameTransform (world sc) (current_state sc) in
  (frame_id <> link_name /\ resolve link_name = Identity /\
   grasp_transforms p link_name sc
   = inl "requested link does not exist or could not be retrieved")
  \/ (frame_id <> link_name /\ resolve link_name <> Identity /\
      resolve frame_id = Identity /\
      grasp_transforms p link_name sc
      = inl "requested frame does not exist or could not be retrieved")
  \/ ((frame_id = link_name \/
       (resolve link_name <> Identity /\ resolve frame_id <> Identity)) /\
      exists grasp2tool grasp2link,
        grasp_transforms p link_name sc = inr (grasp2tool, grasp2link)).
Proof.
  intros frame_id resolve. unfold grasp_transforms. fold frame_id.
  destruct (String.eqb_spec frame_id link_name) as [E|E]; simpl.
  - right; right. split; [now left|]. eauto.
  - fold resolve.
    destruct (cwiseEqual_all (resolve link_name) Identity) eqn:EL.
    + left. apply cwiseEqual_all_spec in EL. auto.
    + apply cwiseEqual_all_false in EL. right.
      destruct (cwiseEqual_all (resolve frame_id) Identity) eqn:EF.
      * left. apply cwiseEqual_all_spec in EF. auto.
      * apply cwiseEqual_all_false in EF. right. split; [now right|]. eauto.
Qed.

(** With the scene bound and the end effector known, either a resolution
    fails and the call throws, the named pose already applied, or all
    succeed. *)
Lemma compute_resolution_cases st sc0 jmg :
  scene_ st = Some sc0 ->
  getEndEffector (world sc0) (eef (properties st)) = Some jmg ->
  let sc := apply_named_pose (properties st) jmg sc0 in
  (resolution_fails st sc jmg /\ exists what, compute st = Thrown what (with_scene st sc))
  \/ (~ resolution_fails st sc jmg /\
      exists grasp2tool grasp2link object_pose,
        resolves_to st sc jmg grasp2tool grasp2link object_pose).
Proof.
  intros Hsc Hjmg sc. unfold compute. rewrite Hsc, Hjmg. cbv zeta. fold sc.
  unfold resolution_fails. cbv zeta.
  set (link_name := getEndEffectorParentLink jmg).
  destruct (grasp_transforms_cases (properties st) link_name sc)
    as [(Hne & HL & ->)|[(Hne & HL & HF & ->)|(Hok & g2t & g2l & Hg)]].
  - left. split; [left; auto|]. eauto.
  - left. split; [left; auto|]. eauto.
  - rewrite Hg.
    destruct (cwiseEqual_all
                (getFrameTransform (world sc) (current_state sc) (object (properties st)))
                Identity) eqn:EO.
    + left. apply cwiseEqual_all_spec in EO. split; [now right|]. eauto.
    + apply cwiseEqual_all_false in EO. right. split.
      * intros [(Hne & [HL|HF])|HO]; [| |contradiction];
          destruct Hok as [Heq|[HL' HF']]; contradiction.
      * exists g2t, g2l, (getFrameTransform (world sc) (current_state sc)
                            (object (properties st))).
        exists sc0. repeat split; auto.
Qed.

(** X5: the four ways a call of [compute] can end, each characterised.
    It returns true exactly from an active state whose resolutions
    succeed, false exactly from an exhausted one whose resolutions
    succeed, throws exactly when the scene is bound, the end effector
    known and a resolution fails, and stops at the assertion exactly when
    the scene is not bound or the end effector unknown, the object then
    untouched. *)
Theorem compute_outcomes (st : GenerateGraspPose) :
  ((exists st', compute st = Returned true st') <->
     resolvable st /\ canCompute st = true) /\
  ((exists st', compute st = Returned false st') <->
     resolvable st /\ canCompute st = false) /\
  ((exists what st', compute st = Thrown what st') <->
     exists sc0 jmg,
       scene_ st = Some sc0 /\
       getEndEffector (world sc0) (eef (properties st)) = Some jmg /\
       resolution_fails st (apply_named_pose (properties st) jmg sc0) jmg) /\
  ((exists st', compute st = Aborted st') <->
     scene_ st = None \/
     exists sc0, scene_ st = Some sc0 /\
                 getEndEffector (world sc0) (eef (properties st)) = None) /\
  (forall st', compute st = Aborted st' -> st' = st).
Proof.
  assert (Hret : forall b, (exists st', compute st = Returned b st') <->
                           resolvable st /\ canCompute st = b).
  { intros b. split.
    - intros [st' Hc].
      destruct (scene_ st) as [sc0|] eqn:Hsc;
        [|unfold compute in Hc; rewrite Hsc in Hc; discriminate].
      destruct (getEndEffector (world sc0) (eef (properties st))) as [jmg|] eqn:Hj;
        [|unfold compute in Hc; rewrite Hsc, Hj in Hc; discriminate].
      destruct (compute_resolution_cases st sc0 jmg Hsc Hj)
        as [(_ & what & Ht)|(_ & g2t & g2l & O & Hr)]; [congruence|].
      split; [unfold resolvable; eauto 6|].
      rewrite (compute_resolved _ _ _ _ _ _ Hr) in Hc.
      destruct (canCompute st); congruence.
    - intros [(sc & jmg & g2t & g2l & O & Hr) Hcan].
      rewrite (compute_resolved _ _ _ _ _ _ Hr), Hcan. destruct b; eauto. }
  split; [apply Hret|]. split; [apply Hret|]. split; [|split].
  - split.
    + intros (what & st' & Hc).
      destruct (scene_ st) as [sc0|] eqn:Hsc;
        [|unfold compute in Hc; rewrite Hsc in Hc; discriminate].
      destruct (getEndEffector (world sc0) (eef (properties st))) as [jmg|] eqn:Hj;
        [|unfold compute in Hc; rewrite Hsc, Hj in Hc; discriminate].
      exists sc0, jmg. split; [reflexivity|]. split; [exact Hj|].
      destruct (compute_resolution_cases st sc0 jmg Hsc Hj)
        as [(Hf & _)|(_ & g2t & g2l & O & Hr)]; [exact Hf|].
      rewrite (compute_resolved _ _ _ _ _ _ Hr) in Hc.
      destruct (canCompute st); discriminate.
    + intros (sc0 & jmg & Hsc & Hj & Hf).
      destruct (compute_resolution_cases st sc0 jmg Hsc Hj)
        as [(_ & what & Ht)|(Hnf & _)]; [eauto|contradiction].
  - unfold compute. destruct (scene_ st) as [sc0|]; [|split; eauto].
    destruct (getEndEffector (world sc0) (eef (properties st))) as [jmg|] eqn:Hj.
    + split.
      * cbv zeta. intros [st' Hc].
        destruct (grasp_transforms _ _ _) as [w|[g2t g2l]]; [discriminate|].
        destruct (cwiseEqual_all _ _); [discriminate|].
        destruct (canCompute _); discriminate.
      * intros [H|(sc1 & [= <-] & H)]; [discriminate|]. rewrite Hj in H. discriminate.
    + split; [|eauto]. intros _. right. exists sc0. rewrite Hj. auto.
  - intros st'. unfold compute. destruct (scene_ st) as [sc0|]; [|congruence].
    destruct (getEndEffector (world sc0) (eef (properties st))) as [jmg|]; [|congruence].
    cbv zeta. destruct (grasp_transforms _ _ _) as [w|[g2t g2l]]; [discriminate|].
    destruct (cwiseEqual_all _ _); [discriminate|].
    destruct (canCompute _); discriminate.
Qed.

(** X6: which exception a failed resolution raises.  With the offset
    declared in a frame other than the parent link, an unknown link is
    reported first, then an unknown frame; an unknown object is reported
    only when those lookups, if made, succeeded.  The exception leaves the
    object with the named pose applied to the scene and nothing else
    changed. *)
Theorem compute_error_messages (st : GenerateGraspPose) (sc0 : PlanningScene)
    (jmg : JointModelGroup) :
  scene_ st = Some sc0 ->
  getEndEffector (world sc0) (eef (properties st)) = Some jmg ->
  let sc := apply_named_pose (properties st) jmg sc0 in
  let link_name := getEndEffectorParentLink jmg in
  let frame_id := offset_frame (properties st) link_name in
  let resolve := getFrameTransform (world sc) (current_state sc) in
  (frame_id <> link_name -> resolve link_name = Identity ->
   compute st = Thrown "requested link does not exist or could not be retrieved"
                       (with_scene st sc)) /\
  (frame_id <> link_name -> resolve link_name <> Identity ->
   resolve frame_id = Identity ->
   compute st = Thrown "requested frame does not exist or could not be retrieved"
                       (with_scene st sc)) /\
  ((frame_id = link_name \/
    (resolve link_name <> Identity /\ resolve frame_id <> Identity)) ->
   resolve (object (properties st)) = Identity ->
   compute st = Thrown "requested object does not exist or could not be retrieved"
                       (with_scene st sc)).
Proof.
  intros Hsc Hjmg sc link_name frame_id resolve.
  unfold compute. rewrite Hsc, Hjmg. cbv zeta. fold sc link_name.
  destruct (grasp_transforms_cases (properties st) link_name sc)
    as [(Hne & HL & Hg)|[(Hne & HL & HF & Hg)|(Hok & g2t & g2l & Hg)]];
    fold frame_id resolve in Hne, HL || fold frame_id resolve in Hok;
    rewrite Hg.
  - split; [reflexivity|]. split; [intros; contradiction|].
    intros [E|[HL' _]] _; contradiction.
  - fold frame_id resolve in HF.
    split; [intros; contradiction|]. split; [reflexivity|].
    intros [E|[_ HF']] _; contradiction.
  - split; [|split].
    + intros Hne HL. destruct Hok as [E|[HL' _]]; contradiction.
    + intros Hne _ HF. destruct Hok as [E|[_ HF']]; contradiction.
    + intros _ HO. fold resolve. rewrite HO.
      rewrite (proj2 (cwiseEqual_all_spec _ _) eq_refl). reflexivity.
Qed.

End Outcomes.

(** ** Sequences of calls *)

Section CallSequences.

Context {host : Collaborators}.

Lemma perform_setter_frame (st : GenerateGraspPose) (c : Call) :
  is_compute c = false ->
  current_angle_ (perform st c) = current_angle_ st /\
  spawned (perform st c) = spawned st.
Proof. destruct c; intros H; try discriminate H; split; reflexivity. Qed.

(** X8: no call takes a candidate back.  After any sequence of public
    calls the sink is the old sink followed by at most one new candidate
    per call of [compute] in the sequence; setters and [init] add none. *)
Theorem candidates_only_appended (calls : list Call) (st : GenerateGraspPose) :
  exists added,
    spawned (perform_all st calls) = spawned st ++ added /\
    (length added <= length (filter is_compute calls))%nat.
Proof.
  revert st. induction calls as [|c calls IH]; intros st.
  - exists []. simpl. split; [now rewrite app_nil_r|lia].
  - simpl. destruct (IH (perform st c)) as (added & Hs & Hl).
    destruct (is_compute c) eqn:Ec.
    + destruct c; try discriminate Ec. simpl in *.
      destruct (compute_step_cases st) as [[_ E]|(_ & _ & x & E)]; rewrite E in Hs.
      * exists added. split; [exact Hs|lia].
      * exists (x :: added). rewrite <- app_assoc in Hs. split; [exact Hs|simpl; lia].
    + destruct (perform_setter_frame st c Ec) as [_ E]. rewrite E in Hs.
      exists added. split; [exact Hs|exact Hl].
Qed.

(** X3: an exhausted generator stays exhausted whatever is called on it:
    neither the setters, nor [init], nor [compute] move its cursor, and
    nothing more is emitted. *)
Theorem exhausted_forever (calls : list Call) (st : GenerateGraspPose) :
  canCompute st = false ->
  canCompute (perform_all st calls) = false /\
  current_angle_ (perform_all st calls) = current_angle_ st /\
  spawned (perform_all st calls) = spawned st.
Proof.
  revert st. induction calls as [|c calls IH]; intros st Hc; [auto|].
  simpl.
  assert (H : current_angle_ (perform st c) = current_angle_ st /\
              spawned (perform st c) = spawned st).
  { destruct (is_compute c) eqn:Ec; [|now apply perform_setter_frame].
    destruct c; try discriminate Ec. now apply compute_exhausted_frame. }
  destruct H as [Ha Hs].
  destruct (IH (perform st c)) as (H1 & H2 & H3).
  - now rewrite (canCompute_angle st).
  - repeat split; congruence.
Qed.

(** X14: the cursor overshoots the bound by less than one step.  From a
    cursor at 0, in every state the calls of [compute] reach, the cursor
    is less than [2 pi + |angle_delta|] in absolute value. *)
Theorem cursor_overshoot_bounded (st0 st : GenerateGraspPose) :
  current_angle_ st0 = 0 ->
  reachable st0 st ->
  Rabs (current_angle_ st) < 2 * PI + Rabs (angle_delta (properties st0)).
Proof.
  intros H0 Hr.
  assert (H : properties st = properties st0 /\
              Rabs (current_angle_ st) < 2 * PI + Rabs (angle_delta (properties st0))).
  { induction Hr as [|st Hr [IHp IHa]].
    - split; [reflexivity|]. rewrite H0, Rabs_R0.
      pose proof PI_RGT_0. pose proof (Rabs_pos (angle_delta (properties st0))). lra.
    - split; [now rewrite compute_properties|].
      destruct (compute_step_cases st) as [[-> _]|(Hc & -> & _)]; [exact IHa|].
      apply canCompute_abs in Hc. rewrite IHp.
      eapply Rle_lt_trans; [apply Rabs_triang|]. lra. }
  apply H.
Qed.

End CallSequences.

(** ** Rotations, quaternions and the Eigen overload *)

Lemma is_rotation_equations a b c d e f g h i :
  is_rotation (mkMatrix3d a b c d e f g h i) ->
  a * a + b * b + c * c = 1 /\ d * d + e * e + f * f = 1 /\ g * g + h * h + i * i = 1 /\
  a * d + b * e + c * f = 0 /\ a * g + b * h + c * i = 0 /\ d * g + e * h + f * i = 0 /\
  a * (e * i - f * h) - b * (d * i - f * g) + c * (d * h - e * g) = 1.
Proof.
  unfold is_rotation, mmul, transpose, determinant, Matrix3d_Identity; simpl.
  intros [H D]. injection H as H1 H2 H3 H4 H5 H6 H7 H8 H9. repeat split; assumption.
Qed.

(** A rotation matrix is its own matrix of cofactors. *)
Lemma rotation_cofactors a b c d e f g h i :
  a * a + b * b + c * c = 1 -> d * d + e * e + f * f = 1 -> g * g + h * h + i * i = 1 ->
  a * d + b * e + c * f = 0 -> a * g + b * h + c * i = 0 -> d * g + e * h + f * i = 0 ->
  a * (e * i - f * h) - b * (d * i - f * g) + c * (d * h - e * g) = 1 ->
  a = e * i - f * h /\ b = f * g - d * i /\ c = d * h - e * g /\
  d = c * h - b * i /\ e = a * i - c * g /\ f = b * g - a * h /\
  g = b * f - c * e /\ h = c * d - a * f /\ i = a * e - b * d.
Proof. intros. repeat split; nsatz. Qed.

Lemma sqrt_square_positive (t : R) : 0 < t -> sqrt t * sqrt t = t /\ 0 < sqrt t.
Proof. intros H. split; [apply sqrt_sqrt; lra|now apply sqrt_lt_R0]. Qed.

Ltac quaternion_branch t :=
  cbv beta iota zeta delta
    [Nat.add Nat.modulo Nat.divmod fst snd Nat.sub coeff coeffRef qx qy qz qw
     m00 m01 m02 m10 m11 m12 m20 m21 m22];
  let Hs := fresh "Hs" in
  let Hp := fresh "Hp" in
  let r := fresh "r" in
  destruct (sqrt_square_positive t) as [Hs Hp]; [lra|];
  set (r := sqrt t) in *; clearbody r.

(** Matrix to quaternion and back: on a rotation matrix Eigen's two
    conversions compose to the identity, and the quaternion has norm 1. *)
Lemma Quaterniond_of_Matrix3d_rotation (mat : Matrix3d) :
  is_rotation mat ->
  let q := Quaterniond_of_Matrix3d mat in
  toRotationMatrix q = mat /\
  qx q * qx q + qy q * qy q + qz q * qz q + qw q * qw q = 1.
Proof.
  destruct mat as [a b c d e f g h i]. intros Hrot.
  destruct (is_rotation_equations _ _ _ _ _ _ _ _ _ Hrot)
    as (N1 & N2 & N3 & O1 & O2 & O3 & D).
  destruct (rotation_cofactors _ _ _ _ _ _ _ _ _ N1 N2 N3 O1 O2 O3 D)
    as (C1 & C2 & C3 & C4 & C5 & C6 & C7 & C8 & C9).
  clear Hrot. cbv zeta. unfold Quaterniond_of_Matrix3d.
  cbv beta iota zeta delta [coeff m00 m01 m02 m10 m11 m12 m20 m21 m22].
  destruct (Rlt_dec 0 (a + e + i)) as [Ht|Ht].
  - rewrite (proj2 (Rltb_true _ _) Ht). quaternion_branch (a + e + i + 1).
    unfold toRotationMatrix; cbn [qx qy qz qw].
    split; [f_equal|]; field_simplify_eq; try lra; cbn [pow]; nsatz.
  - rewrite (proj2 (Rltb_false _ _)) by lra.
    destruct (Rlt_dec a e) as [Hae|Hae].
    + rewrite (proj2 (Rltb_true _ _) Hae).
      cbv beta iota zeta delta [coeff m00 m01 m02 m10 m11 m12 m20 m21 m22].
      destruct (Rlt_dec e i) as [Hei|Hei].
      * rewrite (proj2 (Rltb_true _ _) Hei). quaternion_branch (i - a - e + 1).
        unfold toRotationMatrix; cbn [qx qy qz qw].
        split; [f_equal|]; field_simplify_eq; try lra; cbn [pow]; nsatz.
      * rewrite (proj2 (Rltb_false _ _)) by lra. quaternion_branch (e - i - a + 1).
        unfold toRotationMatrix; cbn [qx qy qz qw].
        split; [f_equal|]; field_simplify_eq; try lra; cbn [pow]; nsatz.
    + rewrite (proj2 (Rltb_false a e)) by lra.
      cbv beta iota zeta delta [coeff m00 m01 m02 m10 m11 m12 m20 m21 m22].
      destruct (Rlt_dec a i) as [Hai|Hai].
      * rewrite (proj2 (Rltb_true _ _) Hai). quaternion_branch (i - a - e + 1).
        unfold toRotationMatrix; cbn [qx qy qz qw].
        split; [f_equal|]; field_simplify_eq; try lra; cbn [pow]; nsatz.
      * rewrite (proj2 (Rltb_false _ _)) by lra. quaternion_branch (a - e - i + 1).
        unfold toRotationMatrix; cbn [qx qy qz qw].
        split; [f_equal|]; field_simplify_eq; try lra; cbn [pow]; nsatz.
Qed.

Lemma determinant_mmul (a b : Matrix3d) :
  determinant (mmul a b) = determinant a * determinant b.
Proof. destruct a, b; unfold determinant, mmul; simpl. ring. Qed.

Lemma determinant_Matrix3d_inverse (a : Matrix3d) :
  determinant a <> 0 -> determinant (Matrix3d_inverse a) = / determinant a.
Proof.
  destruct a; unfold Matrix3d_inverse, determinant; simpl. intros H. field. exact H.
Qed.

Lemma invertible_compose (a b : Affine3d) :
  invertible a -> invertible b -> invertible (compose a b).
Proof.
  unfold invertible, compose; simpl. rewrite determinant_mmul. intros Ha Hb.
  now apply Rmult_integral_contrapositive_currified.
Qed.

Lemma invertible_inverse (a : Affine3d) : invertible a -> invertible (inverse a).
Proof.
  unfold invertible, inverse; simpl. intros Ha.
  rewrite determinant_Matrix3d_inverse by exact Ha. now apply Rinv_neq_0_compat.
Qed.

Lemma is_rotation_invertible (t : Affine3d) : is_rotation (linear t) -> invertible t.
Proof. intros [_ Hd]. unfold invertible. rewrite Hd. lra. Qed.

Lemma is_rotation_Identity : is_rotation Matrix3d_Identity.
Proof.
  unfold is_rotation, mmul, transpose, determinant, Matrix3d_Identity; simpl.
  split; [f_equal|]; ring.
Qed.

(** ** The geometry of a sample *)

Section SampleGeometry.

Context {host : Collaborators}.

Lemma sin_cos_minus_half_pi : sin (- PI / 2) = -1 /\ cos (- PI / 2) = 0.
Proof.
  replace (- PI / 2) with (- (PI / 2)) by lra.
  rewrite sin_neg, cos_neg, sin_PI2, cos_PI2. split; lra.
Qed.

(** X9: the grasp pose of line 139, the object pose rotated about its
    own z axis.  It keeps the origin and the z axis of the object pose and
    the determinant of its linear part, it is a rotation when the object
    pose is, a full turn gives the same pose again, and the angle 0 gives
    the object pose itself. *)
Theorem grasp_pose_about_z (object_pose : Affine3d) (a : R) :
  let grasp_pose := rotate object_pose (AngleAxisd a UnitZ) in
  translation grasp_pose = translation object_pose /\
  z_axis (linear grasp_pose) = z_axis (linear object_pose) /\
  determinant (linear grasp_pose) = determinant (linear object_pose) /\
  (is_rotation (linear object_pose) -> is_rotation (linear grasp_pose)) /\
  rotate object_pose (AngleAxisd (a + 2 * PI) UnitZ) = grasp_pose /\
  rotate object_pose (AngleAxisd 0 UnitZ) = object_pose.
Proof.
  intros grasp_pose. subst grasp_pose.
  pose proof (sin2_cos2 a) as Hsc. unfold Rsqr in Hsc.
  destruct object_pose as [[m a1 a2 b0 b1 b2 c0 c1 c2] t].
  split; [reflexivity|]. split; [|split; [|split; [|split]]].
  - unfold z_axis, rotate, AngleAxisd, mmul, mvec, UnitZ; simpl. f_equal; ring.
  - unfold rotate, AngleAxisd, mmul, determinant, UnitZ; simpl.
    set (s := sin a) in *. set (c := cos a) in *. clearbody s c. nsatz.
  - intros Hrot. apply is_rotation_equations in Hrot.
    destruct Hrot as (N1 & N2 & N3 & O1 & O2 & O3 & D).
    unfold is_rotation, rotate, AngleAxisd, mmul, transpose, determinant,
      Matrix3d_Identity, UnitZ; simpl.
    set (s := sin a) in *. set (c := cos a) in *. clearbody s c.
    split; [f_equal|]; nsatz.
  - unfold rotate. rewrite !AngleAxisd_UnitZ. unfold Rot_z; simpl.
    now rewrite sin_plus, cos_plus, sin_2PI, cos_2PI, !Rmult_0_r, !Rmult_1_r,
      Rplus_0_r, Rminus_0_r.
  - rewrite rotate_UnitZ, Rot_z_0. apply compose_Identity_r.
Qed.

(** X10: the link pose of a candidate realises the grasp.  With every
    transform involved invertible, the link placed at
    [link_pose = grasp_pose * grasp2link] carries the grasp frame (the
    configured offset seen from the link) exactly onto [grasp_pose], and
    [grasp_pose * grasp2tool], where the arrow marker is drawn, carries
    the offset onto [grasp_pose] as well. *)
Theorem link_pose_realises_grasp (p : Properties) (link_name : string)
    (sc : PlanningScene) (grasp2tool grasp2link : Affine3d) :
  let T := transformMsgToEigen (transform (tool_to_grasp_tf p)) in
  let frame_id := offset_frame p link_name in
  let link_pose := getFrameTransform (world sc) (current_state sc) link_name in
  let F_pose := getFrameTransform (world sc) (current_state sc) frame_id in
  let to_grasp_in_link :=
    if frame_id =? link_name then T
    else compose (compose (inverse link_pose) F_pose) T in
  grasp_transforms p link_name sc = inr (grasp2tool, grasp2link) ->
  invertible T ->
  (frame_id <> link_name -> invertible link_pose /\ invertible F_pose) ->
  forall grasp_pose : Affine3d,
    compose (compose grasp_pose grasp2link) to_grasp_in_link = grasp_pose /\
    compose (compose grasp_pose grasp2tool) T = grasp_pose.
Proof.
  intros T frame_id link_pose F_pose X Hg HT HLF G.
  assert (Hcancel : forall A : Affine3d,
             invertible A -> compose (compose G (inverse A)) A = G).
  { intros A HA. now rewrite compose_assoc, inverse_compose_l, compose_Identity_r. }
  unfold grasp_transforms in Hg. fold frame_id T in Hg. subst X.
  destruct (String.eqb_spec frame_id link_name) as [E|E]; simpl in Hg.
  - injection Hg as <- <-. split; now apply Hcancel.
  - fold link_pose F_pose in Hg.
    destruct (cwiseEqual_all link_pose Identity); [discriminate|].
    destruct (cwiseEqual_all F_pose Identity); [discriminate|].
    injection Hg as <- <-. destruct (HLF E) as [HL HF].
    split; apply Hcancel; auto using invertible_compose, invertible_inverse.
Qed.

(** X11: the frame of the arrow marker (lines 160-164).  Its x axis, the
    axis the arrow is drawn along, is the z axis of
    [grasp_pose * grasp2tool], its y axis is that frame's y axis, and the
    point at distance [scale] along the arrow, its tip, is the origin of
    that frame. *)
Theorem arrow_marker_frame (sc : PlanningScene) (grasp_pose grasp2tool : Affine3d) :
  let goal := compose grasp_pose grasp2tool in
  exists arrow : Affine3d,
    marker_pose (arrow_marker sc grasp_pose grasp2tool) = poseEigenToMsg arrow /\
    x_axis (linear arrow) = z_axis (linear goal) /\
    y_axis (linear arrow) = y_axis (linear goal) /\
    z_axis (linear arrow) = vopp (x_axis (linear goal)) /\
    transform_point arrow (mkVector3d (1 / 10) 0 0) = translation goal.
Proof.
  intros goal.
  exists (translate (rotate goal (AngleAxisd (- PI / 2) UnitY))
                    (mkVector3d (- (1 / 10)) 0 0)).
  split; [reflexivity|]. clearbody goal.
  destruct sin_cos_minus_half_pi as [Hs Hc].
  destruct goal as [[g00 g01 g02 g10 g11 g12 g20 g21 g22] [tx ty tz]].
  unfold x_axis, y_axis, z_axis, transform_point, translate, rotate, AngleAxisd,
    mmul, mvec, vadd, vopp, UnitX, UnitY, UnitZ; simpl.
  rewrite Hs, Hc. repeat split; f_equal; field.
Qed.

(** X12: what a successful call leaves behind, put together.  The
    candidate's target pose is [link_pose] in the frame of the parent
    link; the robot state of the scene has that link placed at
    [link_pose]; the trajectory costs 0 and carries the arrow followed by
    one marker per marker generated for the end-effector links in that
    robot state, each put in the namespace [grasp eef] with half its
    opacity and otherwise unchanged. *)
Theorem successful_call_markers
    (st : GenerateGraspPose) (sc : PlanningScene) (jmg : JointModelGroup)
    (grasp2tool grasp2link object_pose : Affine3d) :
  canCompute st = true ->
  resolves_to st sc jmg grasp2tool grasp2link object_pose ->
  let link_name := getEndEffectorParentLink jmg in
  let grasp_pose := rotate object_pose (AngleAxisd (current_angle_ st) UnitZ) in
  let link_pose := compose grasp_pose grasp2link in
  let placed := updateStateWithLinkAt (current_state sc) link_name link_pose in
  let generated := generateVisualMarkers placed (getLinkModelNames jmg) in
  exists st' state trajectory eef_markers,
    compute st = Returned true st' /\
    spawned st' = spawned st ++ [(state, trajectory)] /\
    target_pose state = mkPoseStamped link_name (poseEigenToMsg link_pose) /\
    scene_ st' = Some (mkPlanningScene (world sc) placed) /\
    cost trajectory = 0 /\
    markers trajectory = arrow_marker sc grasp_pose grasp2tool :: eef_markers /\
    Forall2
      (fun (m : Marker) (gen : Marker * string) =>
         marker_ns m = "grasp eef" /\
         color_a (marker_color m) = color_a (marker_color (fst gen)) / 2 /\
         color_r (marker_color m) = color_r (marker_color (fst gen)) /\
         color_g (marker_color m) = color_g (marker_color (fst gen)) /\
         color_b (marker_color m) = color_b (marker_color (fst gen)) /\
         marker_frame_id m = marker_frame_id (fst gen) /\
         marker_type m = marker_type (fst gen) /\
         marker_pose m = marker_pose (fst gen) /\
         marker_scale m = marker_scale (fst gen))
      eef_markers generated.
Proof.
  intros Hc Hr link_name grasp_pose link_pose placed generated.
  rewrite (compute_resolved _ _ _ _ _ _ Hr), Hc.
  eexists; eexists; eexists.
  exists (map (fun mn => appender (fst mn) (snd mn)) generated).
  split; [reflexivity|]. split; [reflexivity|]. split; [reflexivity|].
  split; [reflexivity|]. split; [reflexivity|]. split; [reflexivity|].
  clearbody generated.
  induction generated as [|[m l] rest IH]; simpl; constructor.
  - simpl. repeat split. lra.
  - exact IH.
Qed.

(** X13: the overload of [setToolToGraspTF] that takes an Eigen transform
    (lines 82-88).  For a transform [T] whose linear part is a rotation,
    the stored message names [link] as its frame and [grasp_frame] as its
    child, its quaternion has norm 1, and [compute] reads [T] back from
    it; nothing else of the stage changes; and with [link] empty or the
    parent link, [grasp2tool] and [grasp2link] are [inverse(T)] and undo
    [T]. *)
Theorem setToolToGraspTF_Affine3d_roundtrip
    (st : GenerateGraspPose) (T : Affine3d) (link : string) :
  is_rotation (linear T) ->
  let st' := setToolToGraspTF_Affine3d st T link in
  let msg := tool_to_grasp_tf (properties st') in
  let q := msg_rotation (transform msg) in
  header_frame_id msg = link /\
  child_frame_id msg = "grasp_frame" /\
  qx q * qx q + qy q * qy q + qz q * qz q + qw q * qw q = 1 /\
  transformMsgToEigen (transform msg) = T /\
  (eef (properties st') = eef (properties st) /\
   eef_named_pose (properties st') = eef_named_pose (properties st) /\
   object (properties st') = object (properties st) /\
   angle_delta (properties st') = angle_delta (properties st) /\
   scene_ st' = scene_ st /\
   current_angle_ st' = current_angle_ st /\
   spawned st' = spawned st) /\
  (forall (link_name : string) (sc : PlanningScene),
     link = "" \/ link = link_name ->
     grasp_transforms (properties st') link_name sc = inr (inverse T, inverse T) /\
     compose (inverse T) T = Identity).
Proof.
  intros Hrot st' msg q.
  destruct (Quaterniond_of_Matrix3d_rotation (linear T) Hrot) as [Hback Hnorm].
  assert (HT : transformMsgToEigen (transform msg) = T).
  { unfold transformMsgToEigen. simpl. rewrite Hback. now destruct T. }
  split; [reflexivity|]. split; [reflexivity|]. split; [exact Hnorm|].
  split; [exact HT|]. split; [repeat split|].
  intros link_name sc Hlink. split.
  - rewrite grasp_transforms_direct; [now fold msg; rewrite HT|].
    now apply offset_frame_link.
  - apply inverse_compose_l. now apply is_rotation_invertible.
Qed.

End SampleGeometry.

(** ** The sampling sequence in binary64 *)

Section Binary64Sampling.

Context {host : Collaborators}.

Lemma binary64_compute_resolved st sc jmg grasp2tool grasp2link object_pose :
  Binary64.resolves_to st sc jmg grasp2tool grasp2link object_pose ->
  Binary64.compute st =
    if Binary64.canCompute st
    then Binary64.Returned true
           (Binary64.sample (Binary64.with_scene st sc) sc jmg
              (getEndEffectorParentLink jmg) grasp2tool grasp2link object_pose)
    else Binary64.Returned false (Binary64.with_scene st sc).
Proof.
  intros (sc0 & Hsc & Hjmg & -> & Hg & -> & HO).
  unfold Binary64.compute. rewrite Hsc, Hjmg. cbv zeta. rewrite Hg.
  apply cwiseEqual_all_false in HO. rewrite HO. reflexivity.
Qed.

Lemma binary64_compute_properties st :
  Binary64.properties (Binary64.state_of (Binary64.compute st)) = Binary64.properties st.
Proof.
  unfold Binary64.compute. destruct (Binary64.scene_ st) as [sc|]; [|reflexivity].
  destruct (getEndEffector _ _) as [jmg|]; [|reflexivity]. cbv zeta.
  destruct (Binary64.grasp_transforms _ _ _) as [w|[g2t g2l]]; [reflexivity|].
  destruct (cwiseEqual_all _ _); [reflexivity|].
  destruct (Binary64.canCompute _); reflexivity.
Qed.

Lemma binary64_compute_exhausted_frame st :
  Binary64.canCompute st = false ->
  Binary64.current_angle_ (Binary64.state_of (Binary64.compute st))
  = Binary64.current_angle_ st /\
  Binary64.spawned (Binary64.state_of (Binary64.compute st)) = Binary64.spawned st.
Proof.
  intros Hc. unfold Binary64.compute.
  destruct (Binary64.scene_ st) as [sc|]; [|split; reflexivity].
  destruct (getEndEffector _ _) as [jmg|]; [|split; reflexivity]. cbv zeta.
  destruct (Binary64.grasp_transforms _ _ _) as [w|[g2t g2l]]; [split; reflexivity|].
  destruct (cwiseEqual_all _ _); [split; reflexivity|].
  change (Binary64.canCompute
            (Binary64.with_scene st (Binary64.apply_named_pose (Binary64.properties st) jmg sc)))
    with (Binary64.canCompute st).
  rewrite Hc. split; reflexivity.
Qed.

Lemma binary64_compute_world st sc :
  Binary64.scene_ st = Some sc ->
  exists sc', Binary64.scene_ (Binary64.state_of (Binary64.compute st)) = Some sc' /\
              world sc' = world sc.
Proof.
  intros Hsc. unfold Binary64.compute. rewrite Hsc.
  destruct (getEndEffector _ _) as [jmg|]; [|now exists sc]. cbv zeta.
  assert (Hw : world (Binary64.apply_named_pose (Binary64.properties st) jmg sc) = world sc).
  { unfold Binary64.apply_named_pose. now destruct (_ =? _). }
  destruct (Binary64.grasp_transforms _ _ _) as [w|[g2t g2l]];
    [eexists; split; [reflexivity|exact Hw]|].
  destruct (cwiseEqual_all _ _); [eexists; split; [reflexivity|exact Hw]|].
  destruct (Binary64.canCompute _); eexists; (split; [reflexivity|exact Hw]).
Qed.

Lemma binary64_run_properties n st :
  Binary64.properties (Binary64.run n st) = Binary64.properties st.
Proof.
  induction n as [|n IH]; [reflexivity|]. simpl. now rewrite binary64_compute_properties.
Qed.

Lemma binary64_run_world n st sc :
  Binary64.scene_ st = Some sc ->
  exists sc', Binary64.scene_ (Binary64.run n st) = Some sc' /\ world sc' = world sc.
Proof.
  intros Hsc. induction n as [|n (sc' & Hsc' & Hw)]; [now exists sc|].
  simpl. destruct (binary64_compute_world _ _ Hsc') as (sc'' & H1 & H2).
  exists sc''. split; [exact H1|congruence].
Qed.

Lemma exhausts_after_spec (delta : float) (N : nat) :
  Binary64.exhausts_after delta N = true ->
  (forall k : nat, (k < N)%nat -> Binary64.in_range (Binary64.cursor delta k) = true) /\
  Binary64.in_range (Binary64.cursor delta N) = false.
Proof.
  unfold Binary64.exhausts_after. rewrite andb_true_iff, negb_true_iff, forallb_forall.
  intros [Hall Hend]. split; [|exact Hend].
  intros k Hk. apply Hall. apply in_seq. lia.
Qed.

(** The sink and the cursor along a run: one candidate and one rounded
    addition per call until the cursor has left the range. *)
Lemma binary64_sampling_run
    (st0 : Binary64.GenerateGraspPose) (jmg : JointModelGroup)
    (grasp2tool grasp2link object_pose : Affine3d) (N : nat) :
  let delta := Binary64.angle_delta (Binary64.properties st0) in
  Binary64.current_angle_ st0 = 0%float ->
  Binary64.exhausts_after delta N = true ->
  (forall k : nat,
     (k < N)%nat ->
     exists sc, Binary64.resolves_to (Binary64.run k st0) sc jmg
                  grasp2tool grasp2link object_pose) ->
  forall n : nat,
    Binary64.current_angle_ (Binary64.run n st0) = Binary64.cursor delta (Nat.min n N) /\
    Binary64.canCompute (Binary64.run n st0) = (n <? N)%nat /\
    map summary (Binary64.spawned (Binary64.run n st0))
    = map summary (Binary64.spawned st0) ++
      map (fun k : nat =>
             (mkPoseStamped (getEndEffectorParentLink jmg)
                (poseEigenToMsg
                   (compose
                      (compose object_pose
                         (Rot_z (Binary64.to_R (Binary64.cursor delta k))))
                      grasp2link)),
              to_string (Binary64.to_R (Binary64.cursor delta (S k))),
              0))
          (seq 0 (Nat.min n N)).
Proof.
  intros delta H0 Hex Hres.
  destruct (exhausts_after_spec delta N Hex) as [Hin Hout].
  assert (Hcan : forall n,
             Binary64.current_angle_ (Binary64.run n st0)
             = Binary64.cursor delta (Nat.min n N) ->
             Binary64.canCompute (Binary64.run n st0) = (n <? N)%nat).
  { intros n Ha.
    change (Binary64.in_range (Binary64.current_angle_ (Binary64.run n st0))
            = (n <? N)%nat).
    rewrite Ha. destruct (Nat.ltb_spec n N) as [Hlt|Hge].
    - rewrite Nat.min_l by lia. now apply Hin.
    - rewrite Nat.min_r by lia. exact Hout. }
  assert (Hmain : forall n,
             Binary64.current_angle_ (Binary64.run n st0)
             = Binary64.cursor delta (Nat.min n N) /\
             map summary (Binary64.spawned (Binary64.run n st0))
             = map summary (Binary64.spawned st0) ++
               map (fun k : nat =>
                      (mkPoseStamped (getEndEffectorParentLink jmg)
                         (poseEigenToMsg
                            (compose
                               (compose object_pose
                                  (Rot_z (Binary64.to_R (Binary64.cursor delta k))))
                               grasp2link)),
                       to_string (Binary64.to_R (Binary64.cursor delta (S k))),
                       0))
                   (seq 0 (Nat.min n N))).
  { induction n as [|n [IHa IHs]].
    - simpl. split; [exact H0|now rewrite app_nil_r].
    - pose proof (Hcan n IHa) as Hc.
      change (Binary64.run (S n) st0)
        with (Binary64.state_of (Binary64.compute (Binary64.run n st0))).
      destruct (Nat.ltb_spec n N) as [Hlt|Hge].
      + destruct (Hres n Hlt) as [sc Hr].
        rewrite (binary64_compute_resolved _ _ _ _ _ _ Hr), Hc.
        rewrite Nat.min_l in IHa, IHs by lia. rewrite (Nat.min_l (S n) N) by lia.
        split.
        * simpl. rewrite IHa, binary64_run_properties. reflexivity.
        * cbn [Binary64.state_of Binary64.sample Binary64.spawn Binary64.spawned
               Binary64.with_scene Binary64.with_current_angle Binary64.current_angle_
               Binary64.properties].
          rewrite map_app, IHs, seq_S, map_app, <- app_assoc. f_equal. f_equal.
          unfold summary; cbn [map fst snd target_pose name cost Nat.add].
          rewrite rotate_UnitZ, IHa, binary64_run_properties. reflexivity.
      + destruct (binary64_compute_exhausted_frame _ Hc) as [-> ->].
        rewrite IHa, IHs, (Nat.min_r n N), (Nat.min_r (S n) N) by lia.
        split; reflexivity. }
  intros n. destruct (Hmain n) as [Ha Hs]. auto.
Qed.

(** C1 (amended): from a cursor at 0, the calls of [compute] produce one
    candidate and add [angle_delta] to the cursor once, as doubles, per
    call, and stop when the cursor is no longer strictly between
    [-2*M_PI] and [2*M_PI]: if that happens after [N] additions and not
    before, then after [n] calls the cursor is the [min n N]-fold rounded
    sum, [min n N] candidates were emitted, and [canCompute] holds exactly
    while [n < N]; [N] is the number of candidates. *)
Theorem candidates_until_cursor_leaves_range
    (st0 : Binary64.GenerateGraspPose) (N : nat) :
  let delta := Binary64.angle_delta (Binary64.properties st0) in
  Binary64.current_angle_ st0 = 0%float ->
  Binary64.exhausts_after delta N = true ->
  (forall k : nat, (k < N)%nat -> Binary64.resolvable (Binary64.run k st0)) ->
  forall n : nat,
    Binary64.current_angle_ (Binary64.run n st0) = Binary64.cursor delta (Nat.min n N) /\
    length (Binary64.spawned (Binary64.run n st0))
    = (length (Binary64.spawned st0) + Nat.min n N)%nat /\
    Binary64.canCompute (Binary64.run n st0) = (n <? N)%nat.
Proof.
  intros delta H0 Hex Hres.
  destruct (exhausts_after_spec delta N Hex) as [Hin Hout].
  assert (Hcan : forall n,
             Binary64.current_angle_ (Binary64.run n st0)
             = Binary64.cursor delta (Nat.min n N) ->
             Binary64.canCompute (Binary64.run n st0) = (n <? N)%nat).
  { intros n Ha.
    change (Binary64.in_range (Binary64.current_angle_ (Binary64.run n st0))
            = (n <? N)%nat).
    rewrite Ha. destruct (Nat.ltb_spec n N) as [Hlt|Hge].
    - rewrite Nat.min_l by lia. now apply Hin.
    - rewrite Nat.min_r by lia. exact Hout. }
  assert (Hmain : forall n,
             Binary64.current_angle_ (Binary64.run n st0)
             = Binary64.cursor delta (Nat.min n N) /\
             length (Binary64.spawned (Binary64.run n st0))
             = (length (Binary64.spawned st0) + Nat.min n N)%nat).
  { induction n as [|n [IHa IHs]].
    - simpl. split; [exact H0|lia].
    - pose proof (Hcan n IHa) as Hc.
      change (Binary64.run (S n) st0)
        with (Binary64.state_of (Binary64.compute (Binary64.run n st0))).
      destruct (Nat.ltb_spec n N) as [Hlt|Hge].
      + destruct (Hres n Hlt) as (sc & jmg & g2t & g2l & O & Hr).
        rewrite (binary64_compute_resolved _ _ _ _ _ _ Hr), Hc.
        rewrite Nat.min_l in IHa, IHs by lia. rewrite (Nat.min_l (S n) N) by lia.
        cbn [Binary64.state_of Binary64.sample Binary64.spawn Binary64.spawned
             Binary64.with_scene Binary64.with_current_angle Binary64.current_angle_
             Binary64.properties].
        rewrite length_app, IHa, IHs, binary64_run_properties. simpl. split; [reflexivity|lia].
      + destruct (binary64_compute_exhausted_frame _ Hc) as [-> ->].
        rewrite IHa, IHs, (Nat.min_r n N), (Nat.min_r (S n) N) by lia.
        split; reflexivity. }
  intros n. destruct (Hmain n) as [Ha Hs]. auto.
Qed.

(** X7: the whole sampling sequence.  From a cursor at 0 and an empty
    sink, in an environment that resolves the same transforms at every
    call, when the cursor leaves the range after [N] rounded additions of
    [angle_delta] and not before, after [n] calls the sink holds, in
    order, one candidate for each [k < min n N]: its target pose is the
    object pose rotated by the cursor after [k] additions and moved by
    [grasp2link], its name is the text of the cursor after [k + 1]
    additions, its cost is 0. *)
Theorem sampled_candidates
    (st0 : Binary64.GenerateGraspPose) (jmg : JointModelGroup)
    (grasp2tool grasp2link object_pose : Affine3d) (N : nat) :
  let delta := Binary64.angle_delta (Binary64.properties st0) in
  Binary64.current_angle_ st0 = 0%float ->
  Binary64.spawned st0 = [] ->
  Binary64.exhausts_after delta N = true ->
  (forall k : nat,
     exists sc, Binary64.resolves_to (Binary64.run k st0) sc jmg
                  grasp2tool grasp2link object_pose) ->
  forall n : nat,
    map summary (Binary64.spawned (Binary64.run n st0))
    = map (fun k : nat =>
             (mkPoseStamped (getEndEffectorParentLink jmg)
                (poseEigenToMsg
                   (compose
                      (compose object_pose
                         (Rot_z (Binary64.to_R (Binary64.cursor delta k))))
                      grasp2link)),
              to_string (Binary64.to_R (Binary64.cursor delta (S k))),
              0))
          (seq 0 (Nat.min n N)).
Proof.
  intros delta H0 Hnil Hex Hres n.
  destruct (binary64_sampling_run st0 jmg grasp2tool grasp2link object_pose N H0 Hex
              (fun k _ => Hres k) n) as (_ & _ & Hs).
  rewrite Hs, Hnil. reflexivity.
Qed.

End Binary64Sampling.

(** ** Runs on the bench scene *)

Lemma Translation3d_inverse (x y z : R) :
  inverse (Translation3d x y z) = Translation3d (- x) (- y) (- z).
Proof.
  unfold inverse, Translation3d, Matrix3d_inverse, determinant, mvec, vopp,
    Matrix3d_Identity; simpl.
  f_equal; f_equal; field.
Qed.

Lemma Translation3d_compose (x y z x' y' z' : R) :
  compose (Translation3d x y z) (Translation3d x' y' z')
  = Translation3d (x + x') (y + y') (z + z').
Proof.
  unfold compose, Translation3d, mmul, mvec, vadd, Matrix3d_Identity; simpl.
  f_equal; f_equal; ring.
Qed.

Lemma Translation3d_not_Identity (x y z : R) :
  x <> 0 \/ y <> 0 \/ z <> 0 -> Translation3d x y z <> Identity.
Proof.
  intros H E. unfold Translation3d, Identity in E. injection E as Ex Ey Ez. tauto.
Qed.

Lemma default_offset_Identity :
  transformMsgToEigen (transform TransformStamped_default) = Identity.
Proof.
  unfold transformMsgToEigen, TransformStamped_default, toRotationMatrix, Identity,
    Matrix3d_Identity; simpl.
  f_equal; f_equal; ring.
Qed.

Lemma offset_in_Translation3d (frame : string) :
  transformMsgToEigen (transform (Bench.offset_in frame)) = Translation3d 0 0 1.
Proof.
  unfold transformMsgToEigen, Bench.offset_in, toRotationMatrix, Translation3d,
    Matrix3d_Identity; simpl.
  f_equal; f_equal; ring.
Qed.

#[local] Existing Instance Bench.host.

(** On the bench every frame lookup is independent of the gripper, so a
    stage set up as [Bench.stage] resolves the same transforms in every
    state it reaches. *)
Lemma bench_resolves (delta : R) (st : @GenerateGraspPose Bench.host)
    (sc : @PlanningScene Bench.host) :
  properties st = properties (Bench.stage delta) ->
  scene_ st = Some sc ->
  world sc = Bench.frames ->
  resolves_to st sc tt
    (inverse (transformMsgToEigen (transform TransformStamped_default)))
    (inverse (transformMsgToEigen (transform TransformStamped_default)))
    (Translation3d 1 2 3).
Proof.
  intros Hp Hsc Hw. exists sc. rewrite Hp.
  split; [exact Hsc|]. split; [reflexivity|]. split; [reflexivity|].
  split; [reflexivity|]. split; [simpl; rewrite Hw; reflexivity|].
  apply Translation3d_not_Identity. left. lra.
Qed.

Lemma bench_run_resolves (delta : R) (k : nat) :
  exists sc,
    resolves_to (run k (Bench.stage delta)) sc tt
      (inverse (transformMsgToEigen (transform TransformStamped_default)))
      (inverse (transformMsgToEigen (transform TransformStamped_default)))
      (Translation3d 1 2 3).
Proof.
  destruct (run_world k (Bench.stage delta) Bench.scene eq_refl) as (sc & Hsc & Hw).
  exists sc. apply (bench_resolves delta); [apply run_properties|exact Hsc|exact Hw].
Qed.

Lemma eight_beyond_two_pi : 2 * PI <= 8.
Proof. pose proof PI_4. lra. Qed.

Lemma bench_stage_active (delta : R) : canCompute (Bench.stage delta) = true.
Proof. apply canCompute_true. simpl. pose proof PI_RGT_0. lra. Qed.

Lemma bench_stage_resolvable (delta : R) (k : nat) : resolvable (run k (Bench.stage delta)).
Proof.
  destruct (bench_run_resolves delta k) as [sc Hr]. unfold resolvable. eauto 6.
Qed.

(** With a step of 8 the first call produces a candidate and exhausts
    the generator. *)
Lemma bench_eight_first_call :
  canCompute (run 1 (Bench.stage 8)) = false /\
  length (spawned (run 1 (Bench.stage 8))) = 1%nat.
Proof.
  destruct (bench_run_resolves 8 0) as [sc Hr].
  destruct (compute_active_resolved _ _ _ _ _ _ (bench_stage_active 8) Hr)
    as (st' & traj & Hc & Hs & _ & Ha).
  rewrite run_S. change (run 0 (Bench.stage 8)) with (Bench.stage 8) in *.
  rewrite Hc. simpl state_of. split.
  - apply canCompute_false. right. rewrite Ha. simpl. pose proof eight_beyond_two_pi. lra.
  - rewrite Hs. reflexivity.
Qed.

(** A witness for C3. *)
Lemma compute_emits_exactly_one_witness :
  canCompute (Bench.stage 8) = true /\
  resolvable (Bench.stage 8) /\
  exists st' x,
    compute (Bench.stage 8) = Returned true st' /\
    spawned st' = spawned (Bench.stage 8) ++ [x] /\
    current_angle_ st'
    = current_angle_ (Bench.stage 8) + angle_delta (properties (Bench.stage 8)).
Proof.
  split; [apply bench_stage_active|]. split; [apply (bench_stage_resolvable 8 0)|].
  exact (proj1 (compute_emits_exactly_one (Bench.stage 8) (bench_stage_active 8)
                  (bench_stage_resolvable 8 0))).
Defined.

(** A witness for C4: the first call on the bench, identity offset, emits
    the object pose and names the trajectory after 0 + 8. *)
Lemma pose_before_increment_name_after_witness :
  canCompute (Bench.stage 8) = true /\
  exists st' state trajectory,
    compute (Bench.stage 8) = Returned true st' /\
    spawned st' = spawned (Bench.stage 8) ++ [(state, trajectory)] /\
    target_pose state = mkPoseStamped "wrist" (poseEigenToMsg (Translation3d 1 2 3)) /\
    name trajectory = to_string (0 + 8).
Proof.
  split; [apply bench_stage_active|].
  destruct (pose_before_increment_name_after (Bench.stage 8) Bench.scene tt _ _ _
              (bench_stage_active 8)
              (bench_resolves 8 (Bench.stage 8) Bench.scene eq_refl eq_refl eq_refl))
    as (st' & state & traj & Hc & Hs & _ & Hn & _ & Hid).
  exists st', state, traj. split; [exact Hc|]. split; [exact Hs|].
  split; [|exact Hn].
  apply Hid; [reflexivity|reflexivity|apply default_offset_Identity].
Defined.

(** The poses of the two robot frames of the bench scene. *)
Lemma bench_frame_wrist :
  getFrameTransform (world Bench.scene) (current_state Bench.scene) "wrist"
  = Translation3d 1 0 0.
Proof. reflexivity. Qed.

Lemma bench_frame_tcp :
  getFrameTransform (world Bench.scene) (current_state Bench.scene) "tcp"
  = Translation3d 0 1 0.
Proof. reflexivity. Qed.

Lemma Translation3d_invertible (x y z : R) : invertible (Translation3d x y z).
Proof. unfold invertible, determinant, Translation3d, Matrix3d_Identity; simpl. lra. Qed.

(** A witness for C5: the offset of one unit along z declared in [tcp]. *)
Lemma grasp2link_reexpressed_witness :
  header_frame_id (Bench.offset_in "tcp") <> "wrist" /\
  invertible (getFrameTransform (world Bench.scene) (current_state Bench.scene) "wrist") /\
  exists grasp2tool grasp2link,
    grasp_transforms
      (properties (setToolToGraspTF (Bench.stage 8) (Bench.offset_in "tcp")))
      "wrist" Bench.scene
    = inr (grasp2tool, grasp2link) /\
    grasp2tool = Translation3d 0 0 (-1) /\
    grasp2link = Translation3d 1 (-1) (-1).
Proof.
  split; [discriminate|].
  split; [rewrite bench_frame_wrist; apply Translation3d_invertible|].
  pose proof (grasp2link_reexpressed
                (properties (setToolToGraspTF (Bench.stage 8) (Bench.offset_in "tcp")))
                "wrist" Bench.scene) as H.
  cbv zeta in H.
  change (header_frame_id (tool_to_grasp_tf (properties
            (setToolToGraspTF (Bench.stage 8) (Bench.offset_in "tcp"))))) with "tcp" in H.
  change (transform (tool_to_grasp_tf (properties
            (setToolToGraspTF (Bench.stage 8) (Bench.offset_in "tcp")))))
    with (transform (Bench.offset_in "tcp")) in H.
  rewrite bench_frame_wrist, bench_frame_tcp, offset_in_Translation3d in H.
  rewrite !Translation3d_inverse, !Translation3d_compose, !Translation3d_inverse in H.
  eexists; eexists. split.
  - apply H; try discriminate; apply Translation3d_not_Identity;
      [left|right; left]; lra.
  - split; f_equal; lra.
Defined.

(** C5 as stated fails: on the bench, with the offset declared in [tcp],
    [inverse(link_pose) * F_pose * T] is the translation (-1, 1, 1) while
    [grasp2link] is its inverse, the translation (1, -1, -1). *)
Lemma grasp2link_is_not_the_reexpressed_offset :
  exists grasp2tool grasp2link,
    grasp_transforms
      (properties (setToolToGraspTF (Bench.stage 8) (Bench.offset_in "tcp")))
      "wrist" Bench.scene
    = inr (grasp2tool, grasp2link) /\
    grasp2link = Translation3d 1 (-1) (-1) /\
    compose
      (compose
         (inverse (getFrameTransform (world Bench.scene) (current_state Bench.scene) "wrist"))
         (getFrameTransform (world Bench.scene) (current_state Bench.scene) "tcp"))
      (transformMsgToEigen (transform (Bench.offset_in "tcp")))
    = Translation3d (-1) 1 1 /\
    grasp2link
    <> compose
         (compose
            (inverse (getFrameTransform (world Bench.scene) (current_state Bench.scene) "wrist"))
            (getFrameTransform (world Bench.scene) (current_state Bench.scene) "tcp"))
         (transformMsgToEigen (transform (Bench.offset_in "tcp"))).
Proof.
  assert (HE : compose
      (compose
         (inverse (getFrameTransform (world Bench.scene) (current_state Bench.scene) "wrist"))
         (getFrameTransform (world Bench.scene) (current_state Bench.scene) "tcp"))
      (transformMsgToEigen (transform (Bench.offset_in "tcp")))
    = Translation3d (-1) 1 1).
  { rewrite bench_frame_wrist, bench_frame_tcp, offset_in_Translation3d.
    rewrite Translation3d_inverse, !Translation3d_compose. f_equal; lra. }
  pose proof (grasp_transforms_other_frame
                (properties (setToolToGraspTF (Bench.stage 8) (Bench.offset_in "tcp")))
                "wrist" Bench.scene) as Hg.
  cbv zeta in Hg.
  change (header_frame_id (tool_to_grasp_tf (properties
            (setToolToGraspTF (Bench.stage 8) (Bench.offset_in "tcp"))))) with "tcp" in Hg.
  change (transform (tool_to_grasp_tf (properties
            (setToolToGraspTF (Bench.stage 8) (Bench.offset_in "tcp")))))
    with (transform (Bench.offset_in "tcp")) in Hg.
  rewrite HE in Hg.
  rewrite bench_frame_wrist, bench_frame_tcp, offset_in_Translation3d in *.
  rewrite !Translation3d_inverse in Hg.
  eexists; eexists. split.
  - apply Hg; try discriminate; apply Translation3d_not_Identity;
      [left|right; left]; lra.
  - split; [f_equal; lra|]. split; [exact HE|].
    rewrite HE. intros E. unfold Translation3d in E. injection E as E _ _. lra.
Qed.

(** A witness for C6: the same offset, declared in the parent link. *)
Lemma direct_offset_roundtrip_witness :
  header_frame_id (Bench.offset_in "wrist") = "wrist" /\
  invertible (transformMsgToEigen (transform (Bench.offset_in "wrist"))) /\
  exists grasp2tool grasp2link,
    grasp_transforms
      (properties (setToolToGraspTF (Bench.stage 8) (Bench.offset_in "wrist")))
      "wrist" Bench.scene
    = inr (grasp2tool, grasp2link) /\
    grasp2tool = inverse (transformMsgToEigen (transform (Bench.offset_in "wrist"))) /\
    grasp2link = grasp2tool /\
    compose grasp2tool (transformMsgToEigen (transform (Bench.offset_in "wrist")))
    = Identity.
Proof.
  assert (Hinv : invertible (transformMsgToEigen (transform (Bench.offset_in "wrist")))).
  { rewrite offset_in_Translation3d. apply Translation3d_invertible. }
  split; [reflexivity|]. split; [exact Hinv|].
  destruct (direct_offset_roundtrip
              (properties (setToolToGraspTF (Bench.stage 8) (Bench.offset_in "wrist")))
              "wrist" Bench.scene (or_intror eq_refl))
    as (g2t & g2l & Hg & Ht & Hl & Hid & _).
  exists g2t, g2l. split; [exact Hg|]. split; [exact Ht|].
  split; [congruence|]. apply Hid. exact Hinv.
Defined.

(** A witness for C7: the object [crate] is unknown to the bench scene. *)
Lemma resolution_failure_throws_witness :
  getFrameTransform (world Bench.scene) (current_state Bench.scene) "crate" = Identity /\
  exists what st',
    compute (setObject (Bench.stage 8) "crate") = Thrown what st' /\
    current_angle_ st' = current_angle_ (setObject (Bench.stage 8) "crate") /\
    spawned st' = spawned (setObject (Bench.stage 8) "crate").
Proof.
  split; [reflexivity|].
  destruct (resolution_failure_throws (setObject (Bench.stage 8) "crate") Bench.scene tt
              eq_refl eq_refl (or_intror eq_refl))
    as (what & st' & Hc & Ha & Hs & _).
  exists what, st'. auto.
Defined.

(** A witness for C8: the bench stage with the cursor put at 8 and no
    named pose. *)
Lemma exhausted_compute_returns_false_witness :
  canCompute (with_current_angle (Bench.stage 8) 8) = false /\
  compute (with_current_angle (Bench.stage 8) 8)
  = Returned false (with_current_angle (Bench.stage 8) 8).
Proof.
  assert (Hc : canCompute (with_current_angle (Bench.stage 8) 8) = false).
  { apply canCompute_false. right. simpl. exact eight_beyond_two_pi. }
  split; [exact Hc|].
  apply (proj2 (exhausted_compute_returns_false _ Hc) Bench.scene tt _ _ _
           (bench_resolves 8 (with_current_angle (Bench.stage 8) 8) Bench.scene
              eq_refl eq_refl eq_refl)).
  reflexivity.
Defined.

(** C8 as stated fails.  The bench stage with the named pose [open] and
    a step of 8 is exhausted by its first call; bound again by [init] to
    the scene, whose gripper is in [closed], its next call returns false
    and leaves the gripper of the scene in [open]. *)
Lemma exhausted_compute_applies_named_pose :
  canCompute (init (run 1 (setGripperGraspPose (Bench.stage 8) "open")) Bench.scene)
  = false /\
  scene_ (init (run 1 (setGripperGraspPose (Bench.stage 8) "open")) Bench.scene)
  = Some (mkPlanningScene Bench.frames (Bench.mkGripperState "closed" None)) /\
  exists st',
    compute (init (run 1 (setGripperGraspPose (Bench.stage 8) "open")) Bench.scene)
    = Returned false st' /\
    scene_ st' = Some (mkPlanningScene Bench.frames (Bench.mkGripperState "open" None)) /\
    st' <> init (run 1 (setGripperGraspPose (Bench.stage 8) "open")) Bench.scene.
Proof.
  set (st1 := setGripperGraspPose (Bench.stage 8) "open").
  assert (Hopen : forall st : @GenerateGraspPose Bench.host,
             properties st = properties st1 ->
             scene_ st = Some Bench.scene ->
             resolves_to st
               (mkPlanningScene Bench.frames (Bench.mkGripperState "open" None)) tt
               (inverse (transformMsgToEigen (transform TransformStamped_default)))
               (inverse (transformMsgToEigen (transform TransformStamped_default)))
               (Translation3d 1 2 3)).
  { intros st Hp Hsc. exists Bench.scene. rewrite Hp.
    split; [exact Hsc|]. split; [reflexivity|]. split; [reflexivity|].
    split; [reflexivity|]. split; [reflexivity|].
    apply Translation3d_not_Identity. left. lra. }
  assert (H1 : canCompute st1 = true).
  { apply canCompute_true. simpl. pose proof PI_RGT_0. lra. }
  destruct (compute_active_resolved _ _ _ _ _ _ H1 (Hopen st1 eq_refl eq_refl))
    as (st2 & traj & Hc & _ & _ & Ha).
  assert (Hrun : run 1 st1 = st2) by (rewrite run_S; simpl run; now rewrite Hc).
  rewrite Hrun. set (st := init st2 Bench.scene).
  assert (Hex : canCompute st = false).
  { apply canCompute_false. right. change (current_angle_ st) with (current_angle_ st2).
    rewrite Ha. simpl. pose proof eight_beyond_two_pi. lra. }
  split; [exact Hex|]. split; [reflexivity|].
  assert (Hp : properties st = properties st1).
  { change (properties st) with (properties st2). rewrite <- Hrun. apply run_properties. }
  rewrite (compute_resolved _ _ _ _ _ _ (Hopen st Hp eq_refl)), Hex.
  eexists. split; [reflexivity|]. split; [reflexivity|].
  intros E. apply (f_equal scene_) in E. simpl in E. discriminate E.
Qed.

(** A witness for C9: the bench stage after its first call with a step
    of 8 is exhausted and stays so. *)
Lemma exhausted_is_terminal_witness :
  reachable (Bench.stage 8) (run 1 (Bench.stage 8)) /\
  Exhausted (run 1 (Bench.stage 8)) /\
  forall n : nat, Exhausted (run n (run 1 (Bench.stage 8))).
Proof.
  assert (He : Exhausted (run 1 (Bench.stage 8))) by apply bench_eight_first_call.
  split; [apply reachable_run|]. split; [exact He|].
  intros n.
  exact (proj1 (proj1 (exhausted_is_terminal (Bench.stage 8) (run 1 (Bench.stage 8))
                         eq_refl (reachable_run _ 1)) He n)).
Defined.

(** A witness for C10: the bench stage with a step of 0. *)
Lemma zero_delta_never_exhausts_witness :
  angle_delta (properties (Bench.stage 0)) = 0 /\
  forall n : nat,
    current_angle_ (run n (Bench.stage 0)) = 0 /\
    canCompute (run n (Bench.stage 0)) = true /\
    length (spawned (run n (Bench.stage 0))) = n.
Proof.
  split; [reflexivity|]. intros n.
  destruct (zero_delta_never_exhausts (Bench.stage 0) tt _ _ _ eq_refl eq_refl
              (bench_run_resolves 0) n) as (Ha & Hc & Hl & _).
  auto.
Defined.

(** A witness for X3: the exhausted bench stage, given a new step, bound
    again to the scene and called. *)
Lemma exhausted_forever_witness :
  canCompute (run 1 (Bench.stage 8)) = false /\
  canCompute
    (perform_all (run 1 (Bench.stage 8))
       [call_setAngleDelta (-8); call_init Bench.scene; call_compute])
  = false.
Proof.
  assert (He : canCompute (run 1 (Bench.stage 8)) = false) by apply bench_eight_first_call.
  split; [exact He|].
  exact (proj1 (exhausted_forever
                  [call_setAngleDelta (-8); call_init Bench.scene; call_compute]
                  (run 1 (Bench.stage 8)) He)).
Defined.

(** A witness for X6: the object [crate] is unknown to the bench scene. *)
Lemma compute_error_messages_witness :
  compute (setObject (Bench.stage 8) "crate")
  = Thrown "requested object does not exist or could not be retrieved"
           (setObject (Bench.stage 8) "crate").
Proof.
  exact (proj2 (proj2 (compute_error_messages (setObject (Bench.stage 8) "crate")
                         Bench.scene tt eq_refl eq_refl))
               (or_introl eq_refl) eq_refl).
Defined.

Lemma grasp2link_is_bench_inverse :
  exists grasp2tool grasp2link,
    grasp_transforms
      (properties (setToolToGraspTF (Bench.stage 8) (Bench.offset_in "tcp")))
      "wrist" Bench.scene
    = inr (grasp2tool, grasp2link).
Proof.
  eexists; eexists.
  apply (grasp_transforms_other_frame
           (properties (setToolToGraspTF (Bench.stage 8) (Bench.offset_in "tcp")))
           "wrist" Bench.scene); try discriminate.
  - rewrite bench_frame_wrist. apply Translation3d_not_Identity. left. lra.
  - change (getFrameTransform (world Bench.scene) (current_state Bench.scene) "tcp"
            <> Identity).
    rewrite bench_frame_tcp. apply Translation3d_not_Identity. right. left. lra.
Qed.

(** A witness for X10: the offset declared in [tcp] on the bench. *)
Lemma link_pose_realises_grasp_witness :
  exists grasp2tool grasp2link,
    grasp_transforms
      (properties (setToolToGraspTF (Bench.stage 8) (Bench.offset_in "tcp")))
      "wrist" Bench.scene
    = inr (grasp2tool, grasp2link) /\
    forall grasp_pose : Affine3d,
      compose (compose grasp_pose grasp2link)
        (compose
           (compose
              (inverse (getFrameTransform (world Bench.scene)
                          (current_state Bench.scene) "wrist"))
              (getFrameTransform (world Bench.scene) (current_state Bench.scene) "tcp"))
           (transformMsgToEigen (transform (Bench.offset_in "tcp"))))
      = grasp_pose.
Proof.
  destruct grasp2link_is_bench_inverse as (g2t & g2l & Hg).
  exists g2t, g2l. split; [exact Hg|]. intros G.
  refine (proj1 (link_pose_realises_grasp
                   (properties (setToolToGraspTF (Bench.stage 8) (Bench.offset_in "tcp")))
                   "wrist" Bench.scene g2t g2l Hg _ _ G)).
  - change (invertible (transformMsgToEigen (transform (Bench.offset_in "tcp")))).
    rewrite offset_in_Translation3d. apply Translation3d_invertible.
  - intros _. split.
    + rewrite bench_frame_wrist. apply Translation3d_invertible.
    + change (invertible (getFrameTransform (world Bench.scene)
                            (current_state Bench.scene) "tcp")).
      rewrite bench_frame_tcp. apply Translation3d_invertible.
Defined.

(** A witness for X12: the first call on the bench; its trajectory has
    the arrow and one marker for each of the two fingers. *)
Lemma successful_call_markers_witness :
  canCompute (Bench.stage 8) = true /\
  exists st' state trajectory,
    compute (Bench.stage 8) = Returned true st' /\
    spawned st' = [(state, trajectory)] /\
    cost trajectory = 0 /\
    length (markers trajectory) = 3%nat.
Proof.
  split; [apply bench_stage_active|].
  destruct (successful_call_markers (Bench.stage 8) Bench.scene tt _ _ _
              (bench_stage_active 8)
              (bench_resolves 8 (Bench.stage 8) Bench.scene eq_refl eq_refl eq_refl))
    as (st' & state & traj & eef_markers & Hc & Hs & _ & _ & Hcost & Hm & Hall).
  exists st', state, traj. split; [exact Hc|]. split; [exact Hs|]. split; [exact Hcost|].
  rewrite Hm. simpl. f_equal. apply Forall2_length in Hall. rewrite Hall. reflexivity.
Defined.

Lemma Rot_z_is_rotation (a : R) : is_rotation (linear (Rot_z a)).
Proof.
  pose proof (sin2_cos2 a) as H. unfold Rsqr in H.
  unfold is_rotation, Rot_z, mmul, transpose, determinant, Matrix3d_Identity; simpl.
  split; [f_equal|]; nsatz.
Qed.

(** A witness for X13: a quarter turn about z given in the frame of the
    wrist. *)
Lemma setToolToGraspTF_Affine3d_roundtrip_witness :
  is_rotation (linear (Rot_z (PI / 2))) /\
  transformMsgToEigen
    (transform (tool_to_grasp_tf
       (properties (setToolToGraspTF_Affine3d (Bench.stage 8) (Rot_z (PI / 2)) "wrist"))))
  = Rot_z (PI / 2) /\
  grasp_transforms
    (properties (setToolToGraspTF_Affine3d (Bench.stage 8) (Rot_z (PI / 2)) "wrist"))
    "wrist" Bench.scene
  = inr (inverse (Rot_z (PI / 2)), inverse (Rot_z (PI / 2))).
Proof.
  split; [apply Rot_z_is_rotation|].
  destruct (setToolToGraspTF_Affine3d_roundtrip (Bench.stage 8) (Rot_z (PI / 2)) "wrist"
              (Rot_z_is_rotation (PI / 2)))
    as (_ & _ & _ & HT & _ & Hg).
  split; [exact HT|]. exact (proj1 (Hg "wrist" Bench.scene (or_intror eq_refl))).
Defined.

(** A witness for X14: the bench stage after its first call with a step
    of 8 has its cursor at 8, below 2 pi + 8. *)
Lemma cursor_overshoot_bounded_witness :
  reachable (Bench.stage 8) (run 1 (Bench.stage 8)) /\
  Rabs (current_angle_ (run 1 (Bench.stage 8)))
  < 2 * PI + Rabs (angle_delta (properties (Bench.stage 8))).
Proof.
  split; [apply reachable_run|].
  exact (cursor_overshoot_bounded (Bench.stage 8) (run 1 (Bench.stage 8)) eq_refl
           (reachable_run _ 1)).
Defined.

(** *** The bench stage in binary64 *)

Lemma binary64_bench_run_resolves (delta : float) (k : nat) :
  exists sc,
    Binary64.resolves_to (Binary64.run k (Binary64.bench_stage delta)) sc tt
      (inverse (transformMsgToEigen (transform TransformStamped_default)))
      (inverse (transformMsgToEigen (transform TransformStamped_default)))
      (Translation3d 1 2 3).
Proof.
  destruct (binary64_run_world k (Binary64.bench_stage delta) Bench.scene eq_refl)
    as (sc & Hsc & Hw).
  exists sc, sc. rewrite binary64_run_properties.
  split; [exact Hsc|]. split; [reflexivity|]. split; [reflexivity|].
  split; [reflexivity|]. split; [simpl; rewrite Hw; reflexivity|].
  apply Translation3d_not_Identity. left. lra.
Qed.

Lemma binary64_bench_resolvable (delta : float) (k : nat) :
  Binary64.resolvable (Binary64.run k (Binary64.bench_stage delta)).
Proof.
  destruct (binary64_bench_run_resolves delta k) as [sc Hr].
  unfold Binary64.resolvable. eauto 6.
Qed.

(** The number of candidates of the bench stage is fixed by its step. *)
Lemma binary64_bench_count (delta : float) (N : nat) :
  Binary64.exhausts_after delta N = true ->
  forall n : nat,
    length (Binary64.spawned (Binary64.run n (Binary64.bench_stage delta))) = Nat.min n N /\
    Binary64.canCompute (Binary64.run n (Binary64.bench_stage delta)) = (n <? N)%nat.
Proof.
  intros Hex n.
  destruct (binary64_sampling_run (Binary64.bench_stage delta) tt _ _ _ N eq_refl Hex
              (fun k _ => binary64_bench_run_resolves delta k) n) as (_ & Hc & Hs).
  split; [|exact Hc].
  apply (f_equal (@length _)) in Hs.
  rewrite length_map in Hs. rewrite Hs. simpl. now rewrite length_map, length_seq.
Qed.

Lemma PI_above : 3141592653589793238 / 1000000000000000000 < PI.
Proof.
  pose proof (PI_2_3_7_ineq 9) as [H _].
  unfold PI_2_3_7_tg, Ratan_seq, tg_alt in H.
  cbn [sum_f_R0 Nat.mul Nat.add] in H.
  rewrite !INR_IZR_INZ in H. cbn [Z.of_nat Pos.of_succ_nat Pos.succ] in H.
  lra.
Qed.

Lemma PI_below : PI < 3141592653589793240 / 1000000000000000000.
Proof.
  pose proof (PI_2_3_7_ineq 9) as [_ H].
  unfold PI_2_3_7_tg, Ratan_seq, tg_alt in H.
  cbn [sum_f_R0 Nat.mul Nat.add] in H.
  rewrite !INR_IZR_INZ in H. cbn [Z.of_nat Pos.of_succ_nat Pos.succ] in H.
  lra.
Qed.

(** The exact values of three doubles. *)
Lemma to_R_eight : Binary64.to_R 8 = 8.
Proof.
  unfold Binary64.to_R.
  replace (Prim2SF 8) with (S754_finite false 4503599627370496 (-49))
    by (vm_compute; reflexivity).
  unfold powerRZ. replace (Pos.to_nat 49) with 49%nat by reflexivity. lra.
Qed.

Lemma to_R_M_PI : Binary64.to_R Binary64.M_PI = 7074237752028440 / 2 ^ 51.
Proof.
  unfold Binary64.to_R.
  replace (Prim2SF Binary64.M_PI) with (S754_finite false 7074237752028440 (-51))
    by (vm_compute; reflexivity).
  unfold powerRZ. replace (Pos.to_nat 51) with 51%nat by reflexivity. lra.
Qed.

Lemma to_R_half_M_PI :
  Binary64.to_R (Binary64.M_PI / 2)%float = 7074237752028440 / 2 ^ 52.
Proof.
  unfold Binary64.to_R.
  replace (Prim2SF (Binary64.M_PI / 2)%float)
    with (S754_finite false 7074237752028440 (-52)) by (vm_compute; reflexivity).
  unfold powerRZ. replace (Pos.to_nat 52) with 52%nat by reflexivity. lra.
Qed.

(** The double [M_PI] is below pi. *)
Lemma M_PI_below_PI : Binary64.to_R Binary64.M_PI < PI.
Proof. rewrite to_R_M_PI. pose proof PI_above. lra. Qed.

Lemma Zceil_quotient (x y : R) (z : Z) :
  0 < y -> (IZR z - 1) * y < x <= IZR z * y -> Zceil (x / y) = z.
Proof.
  intros Hy [Hlo Hhi]. apply Zceil_eq. split.
  - apply Rmult_lt_reg_r with y; [exact Hy|].
    unfold Rdiv. rewrite Rmult_assoc, Rinv_l by lra. lra.
  - apply Rmult_le_reg_r with y; [exact Hy|].
    unfold Rdiv. rewrite Rmult_assoc, Rinv_l by lra. lra.
Qed.

(** A witness for C1: the bench stage with the default step, the double
    written 0.1; it produces 63 candidates. *)
Lemma candidates_until_cursor_leaves_range_witness :
  Binary64.current_angle_ (Binary64.bench_stage 0x1.999999999999ap-4) = 0%float /\
  Binary64.exhausts_after 0x1.999999999999ap-4 63 = true /\
  forall n : nat,
    length (Binary64.spawned (Binary64.run n (Binary64.bench_stage 0x1.999999999999ap-4)))
    = Nat.min n 63 /\
    Binary64.canCompute (Binary64.run n (Binary64.bench_stage 0x1.999999999999ap-4))
    = (n <? 63)%nat.
Proof.
  assert (Hex : Binary64.exhausts_after 0x1.999999999999ap-4 63 = true)
    by (vm_compute; reflexivity).
  split; [reflexivity|]. split; [exact Hex|]. intros n.
  destruct (candidates_until_cursor_leaves_range
              (Binary64.bench_stage 0x1.999999999999ap-4) 63 eq_refl Hex
              (fun k _ => binary64_bench_resolvable _ k) n) as (_ & Hl & Hc).
  split; [exact Hl|exact Hc].
Defined.

(** C1 as stated fails, and so does the count with 2 pi for 4 pi.  With a
    step of 8 the bench stage produces one candidate, and
    [ceil(4 pi / 8)] is 2.  With the step [M_PI/2] (the double) it
    produces four, the fourth rounded sum being the double [2*M_PI], and
    [ceil(2 pi / angle_delta)] is 5 at the exact value of that step,
    [ceil(4 pi / angle_delta)] is 9. *)
Lemma candidates_not_ceil_four_pi :
  (Binary64.canCompute (Binary64.bench_stage 8) = true /\
   Binary64.canCompute (Binary64.run 1 (Binary64.bench_stage 8)) = false /\
   length (Binary64.spawned (Binary64.run 1 (Binary64.bench_stage 8))) = 1%nat /\
   Zceil (4 * PI / Binary64.to_R 8) = 2%Z) /\
  (Binary64.canCompute (Binary64.run 3 (Binary64.bench_stage (Binary64.M_PI / 2))) = true /\
   Binary64.canCompute (Binary64.run 4 (Binary64.bench_stage (Binary64.M_PI / 2))) = false /\
   length (Binary64.spawned (Binary64.run 4 (Binary64.bench_stage (Binary64.M_PI / 2))))
   = 4%nat /\
   Binary64.cursor (Binary64.M_PI / 2) 4 = (2 * Binary64.M_PI)%float /\
   Zceil (2 * PI / Binary64.to_R (Binary64.M_PI / 2)) = 5%Z /\
   Zceil (4 * PI / Binary64.to_R (Binary64.M_PI / 2)) = 9%Z).
Proof.
  assert (H8 : Binary64.exhausts_after 8 1 = true) by (vm_compute; reflexivity).
  assert (H2 : Binary64.exhausts_after (Binary64.M_PI / 2) 4 = true)
    by (vm_compute; reflexivity).
  pose proof PI_above as Hlo. pose proof PI_below as Hhi.
  split.
  - split; [apply (binary64_bench_count 8 1 H8 0)|].
    split; [apply (binary64_bench_count 8 1 H8 1)|].
    split; [apply (binary64_bench_count 8 1 H8 1)|].
    rewrite to_R_eight. apply Zceil_quotient; lra.
  - split; [apply (binary64_bench_count _ 4 H2 3)|].
    split; [apply (binary64_bench_count _ 4 H2 4)|].
    split; [apply (binary64_bench_count _ 4 H2 4)|].
    split; [vm_compute; reflexivity|].
    rewrite to_R_half_M_PI. split; apply Zceil_quotient; lra.
Qed.

(** A witness for X7: the bench stage with the default step. *)
Lemma sampled_candidates_witness :
  Binary64.exhausts_after 0x1.999999999999ap-4 63 = true /\
  forall n : nat,
    map summary
      (Binary64.spawned (Binary64.run n (Binary64.bench_stage 0x1.999999999999ap-4)))
    = map (fun k : nat =>
             (mkPoseStamped "wrist"
                (poseEigenToMsg
                   (compose
                      (compose (Translation3d 1 2 3)
                         (Rot_z (Binary64.to_R
                                   (Binary64.cursor 0x1.999999999999ap-4 k))))
                      (inverse (transformMsgToEigen (transform TransformStamped_default))))),
              to_string (Binary64.to_R (Binary64.cursor 0x1.999999999999ap-4 (S k))),
              0))
          (seq 0 (Nat.min n 63)).
Proof.
  assert (Hex : Binary64.exhausts_after 0x1.999999999999ap-4 63 = true)
    by (vm_compute; reflexivity).
  split; [exact Hex|].
  exact (sampled_candidates (Binary64.bench_stage 0x1.999999999999ap-4) tt _ _ _ 63
           eq_refl eq_refl Hex (binary64_bench_run_resolves _)).
Defined.
